(** * Verification of the POST /chat backend (server.mjs / server.js)

    Shallow embedding of the two Express handlers of the repository:
    the ES-module server built on [@google/genai] (variant [ESM]) and the
    CommonJS server built on [@google/generative-ai] (variant [CJS]).
    Disk storage is a finite map from paths to contents, effects are a
    state-and-trace monad, and the model's response is a JS value. *)

From Stdlib Require Import ZArith Ascii String List Bool Lia.
From stdpp Require Import base gmap sets list strings.
Import ListNotations.
Open Scope string_scope.
#[local] Set Warnings "-register-all".

(* ================================================================= *)
(** ** JS helpers on strings *)

(** [s.startsWith(pre)] *)
Definition startsWith (s pre : string) : bool := String.prefix pre s.

(** [s.includes(sub)] *)
Fixpoint includes (s sub : string) : bool :=
  String.prefix sub s ||
  match s with
  | EmptyString => false
  | String _ s' => includes s' sub
  end.

(** [arr.join(sep)] on an array of strings. *)
Fixpoint join (sep : string) (l : list string) : string :=
  match l with
  | [] => ""
  | [x] => x
  | x :: rest => x ++ sep ++ join sep rest
  end.

(** Decimal rendering of a natural number (used by [JSON.stringify]). *)
Fixpoint digits_aux (fuel : nat) (n : N) (acc : string) : string :=
  match fuel with
  | O => acc
  | S f =>
      let acc' := String (ascii_of_N (48 + N.modulo n 10)) acc in
      if (n <? 10)%N then acc' else digits_aux f (N.div n 10) acc'
  end.

Definition N_to_decimal (n : N) : string :=
  digits_aux (S (N.size_nat n)) n "".

Definition Z_to_decimal (z : Z) : string :=
  match z with
  | Z.neg p => "-" ++ N_to_decimal (Npos p)
  | _ => N_to_decimal (Z.to_N z)
  end.

(* ================================================================= *)
(** ** JS values: the shape of a [generateContent] result *)

(** A JS value. [JFun r] is a function object whose call returns [r]
    (a method such as [response.text]). Numbers are integers here. *)
Inductive jsval : Type :=
| JUndef
| JNull
| JBool (b : bool)
| JNum (n : Z)
| JStr (s : string)
| JArr (xs : list jsval)
| JObj (fields : list (string * jsval))
| JFun (ret : jsval).

Fixpoint assoc (k : string) (fs : list (string * jsval)) : option jsval :=
  match fs with
  | [] => None
  | (k', v) :: rest => if String.eqb k k' then Some v else assoc k rest
  end.

(** Property read [v.k] on a value that is neither [undefined] nor [null]. *)
Definition get (v : jsval) (k : string) : jsval :=
  match v with
  | JObj fs => match assoc k fs with Some x => x | None => JUndef end
  | JArr xs => if String.eqb k "length" then JNum (Z.of_nat (length xs)) else JUndef
  | JStr s => if String.eqb k "length" then JNum (Z.of_nat (String.length s)) else JUndef
  | _ => JUndef
  end.

(** Optional chaining [v?.k]. *)
Definition opt_get (v : jsval) (k : string) : jsval :=
  match v with
  | JUndef | JNull => JUndef
  | _ => get v k
  end.

(** Optional indexing [v?.[0]]. *)
Definition opt_index0 (v : jsval) : jsval :=
  match v with
  | JArr (x :: _) => x
  | JStr (String c _) => JStr (String c EmptyString)
  | JObj fs => match assoc "0" fs with Some x => x | None => JUndef end
  | _ => JUndef
  end.

Definition truthy (v : jsval) : bool :=
  match v with
  | JUndef | JNull => false
  | JBool b => b
  | JNum n => negb (Z.eqb n 0)
  | JStr s => negb (String.eqb s "")
  | _ => true
  end.

Definition typeof (v : jsval) : string :=
  match v with
  | JUndef => "undefined"
  | JNull => "object"
  | JBool _ => "boolean"
  | JNum _ => "number"
  | JStr _ => "string"
  | JArr _ | JObj _ => "object"
  | JFun _ => "function"
  end.

(** Calling a value; only functions are called by [extractText]. *)
Definition call (v : jsval) : jsval :=
  match v with JFun r => r | _ => JUndef end.

Definition is_array (v : jsval) : bool :=
  match v with JArr _ => true | _ => false end.

(* ----------------------------------------------------------------- *)
(** *** [JSON.stringify] *)

Definition hex_digit (n : N) : ascii :=
  if (n <? 10)%N then ascii_of_N (48 + n) else ascii_of_N (87 + n).

(** JSON string escaping of one character. *)
Definition escape_char (c : ascii) : string :=
  let n := N_of_ascii c in
  if (n =? 34)%N then "\" ++ String c EmptyString
  else if (n =? 92)%N then "\\"
  else if (n =? 8)%N then "\b"
  else if (n =? 12)%N then "\f"
  else if (n =? 10)%N then "\n"
  else if (n =? 13)%N then "\r"
  else if (n =? 9)%N then "\t"
  else if (n <? 32)%N then
    "\u00" ++ String (hex_digit (N.div n 16)) (String (hex_digit (N.modulo n 16)) EmptyString)
  else String c EmptyString.

Fixpoint escape (s : string) : string :=
  match s with
  | EmptyString => ""
  | String c s' => escape_char c ++ escape s'
  end.

Definition quote (s : string) : string :=
  String (ascii_of_nat 34) (escape s ++ String (ascii_of_nat 34) EmptyString).

(** [JSON.stringify v]; [None] is the JS result [undefined]. *)
Fixpoint stringify (v : jsval) : option string :=
  match v with
  | JUndef | JFun _ => None
  | JNull => Some "null"
  | JBool true => Some "true"
  | JBool false => Some "false"
  | JNum n => Some (Z_to_decimal n)
  | JStr s => Some (quote s)
  | JArr xs =>
      let fix items (l : list jsval) : list string :=
        match l with
        | [] => []
        | x :: rest =>
            match stringify x with Some s => s | None => "null" end :: items rest
        end in
      Some ("[" ++ join "," (items xs) ++ "]")
  | JObj fs =>
      let fix members (l : list (string * jsval)) : list string :=
        match l with
        | [] => []
        | (k, x) :: rest =>
            match stringify x with
            | Some s => (quote k ++ ":" ++ s) :: members rest
            | None => members rest
            end
        end in
      Some ("{" ++ join "," (members fs) ++ "}")
  end.

(* ----------------------------------------------------------------- *)
(** *** [extractText] (server.mjs) *)

Definition part_text (p : jsval) : string :=
  match opt_get p "text" with JStr s => s | _ => "" end.

Definition extractText (genaiResponse : jsval) : jsval :=
  if truthy genaiResponse && String.eqb (typeof (get genaiResponse "text")) "function"
  then call (get genaiResponse "text")
  else
    let parts :=
      opt_get (opt_get (opt_index0 (opt_get genaiResponse "candidates")) "content") "parts" in
    match parts with
    | JArr ps => JStr (join "" (map part_text ps))
    | _ => match stringify genaiResponse with
           | Some s => JStr s
           | None => JUndef
           end
    end.

(* ================================================================= *)
(** ** Uploaded files, content parts, disk storage *)

(** A multer file record ([req.files[i]]). *)
Record file : Type := mkFile {
  fieldname : string;
  originalname : string;
  mimetype : string;
  size : Z;
  path : string
}.

(** One entry of the [parts] array sent to the model: [{ text }] (or a
    bare string, which the CommonJS SDK turns into [{ text }]) and
    [{ inlineData: { data, mimeType } }]. *)
Inductive part : Type :=
| TextPart (text : string)
| InlinePart (data : string) (mimeType : string).

(** The upload directory: stored contents by path, and the paths whose
    [unlink] fails (permissions, file in use). *)
Record fsys : Type := mkFs {
  contents : gmap string string;
  locked : gset string
}.

(** Observable effects of a request, in order. *)
Inductive event : Type :=
| EvRead (p : string)
| EvUnlink (p : string) (ok : bool)
| EvLog (msg : string)
| EvLogFileError (name : string)
| EvInvoke (parts : list part).

(* ----------------------------------------------------------------- *)
(** *** The state-and-trace monad *)

Definition M (A : Type) : Type := fsys -> A * fsys * list event.

#[global] Instance M_ret : MRet M := fun A a s => (a, s, []).
#[global] Instance M_bind : MBind M := fun A B k m s =>
  match m s with
  | (a, s1, t1) =>
      match k a s1 with
      | (b, s2, t2) => (b, s2, (t1 ++ t2)%list)
      end
  end.

(** [fs.readFile(p)]: fails when nothing is stored at [p]. *)
Definition fs_read (p : string) : M (option string) :=
  fun s => (contents s !! p, s, [EvRead p]).

(** [fs.unlink(p)]: fails on a locked or missing path. *)
Definition fs_unlink (p : string) : M bool :=
  fun s =>
    if bool_decide (p ∈ locked s) then (false, s, [EvUnlink p false])
    else match contents s !! p with
         | Some _ => (true, mkFs (delete p (contents s)) (locked s), [EvUnlink p true])
         | None => (false, s, [EvUnlink p false])
         end.

Definition log (msg : string) : M unit := fun s => (tt, s, [EvLog msg]).

Definition log_file_error (name : string) : M unit :=
  fun s => (tt, s, [EvLogFileError name]).

Fixpoint mapM_ {A} (f : A -> M unit) (l : list A) : M unit :=
  match l with
  | [] => mret tt
  | x :: rest => f x ;; mapM_ f rest
  end.

(* ----------------------------------------------------------------- *)
(** *** Base64 ([Buffer#toString("base64")]) *)

Definition b64_alphabet : string :=
  "ABCDEFGHIJKLMNOPQRSTUVWXYZabcdefghijklmnopqrstuvwxyz0123456789+/".

Definition b64_char (n : N) : string :=
  match String.get (N.to_nat n) b64_alphabet with
  | Some c => String c EmptyString
  | None => ""
  end.

Fixpoint b64_bytes (l : list N) : string :=
  match l with
  | a :: b :: c :: rest =>
      let n := (a * 65536 + b * 256 + c)%N in
      b64_char (N.shiftr n 18) ++ b64_char (N.land (N.shiftr n 12) 63) ++
      b64_char (N.land (N.shiftr n 6) 63) ++ b64_char (N.land n 63) ++ b64_bytes rest
  | [a; b] =>
      let n := (a * 65536 + b * 256)%N in
      b64_char (N.shiftr n 18) ++ b64_char (N.land (N.shiftr n 12) 63) ++
      b64_char (N.land (N.shiftr n 6) 63) ++ "="
  | [a] =>
      let n := (a * 65536)%N in
      b64_char (N.shiftr n 18) ++ b64_char (N.land (N.shiftr n 12) 63) ++ "=="
  | [] => ""
  end.

Definition base64 (data : string) : string :=
  b64_bytes (map N_of_ascii (list_ascii_of_string data)).

(* ================================================================= *)
(** ** Requests, responses, configuration *)

(** [req.body.prompt] is a form field: absent or a string. *)
Definition prompt_truthy (prompt : option string) : bool :=
  match prompt with Some p => negb (String.eqb p "") | None => false end.

Record request : Type := mkReq {
  req_prompt : option string;
  req_files : list file
}.

Inductive body : Type :=
| BOk (output : jsval) (filesProcessed : nat)
| BErr (error : string) (details : option string).

Record response : Type := mkResp {
  status : Z;
  rbody : body
}.

(** [process.env]: [GOOGLE_API_KEY] (server.mjs), [GEMINI_API_KEY]
    (server.js), [NODE_ENV]; an unset variable is the empty string. *)
Record config : Type := mkCfg {
  google_api_key : string;
  gemini_api_key : string;
  node_env : string
}.

(** A thrown error: its [message] property (if any), [String(error)]
    and its [stack]. *)
Record js_error : Type := mkErr {
  err_message : option string;
  err_string : string;
  err_stack : string
}.

Inductive variant : Type := ESM | CJS.

(* ================================================================= *)
(** ** Building the parts of the user message *)

Definition dq : string := String (ascii_of_nat 34) EmptyString.
Definition nl : string := String (ascii_of_nat 10) EmptyString.

Definition image_instruction : string :=
  "Please analyze this image and describe what you see in detail.".
Definition summary_instruction : string :=
  "Please summarize the content of this file.".
Definition docx_type : string :=
  "application/vnd.openxmlformats-officedocument.wordprocessingml.document".

Definition is_text_type (mimeType : string) : bool :=
  String.eqb mimeType "text/plain" || String.eqb mimeType "text/markdown".
Definition is_document_type (mimeType : string) : bool :=
  String.eqb mimeType "application/pdf" || String.eqb mimeType "application/msword" ||
  String.eqb mimeType docx_type.

Definition text_file_part (f : file) (textContent : string) : part :=
  TextPart ("Content of file " ++ dq ++ originalname f ++ dq ++ ":" ++ nl ++ textContent).

(** The result of a per-file [try] body: [inl parts] when it completes,
    [inr parts] when it throws, with the parts pushed before the throw. *)
Definition try_result : Type := list part + list part.

Module Esm.

(** [fileToGenerativePart] (server.mjs); [None] is a rejected read. *)
Definition fileToGenerativePart (filePath mimeType : string) : M (option part) :=
  fileData ← fs_read filePath ;
  mret (match fileData with
        | Some d => Some (InlinePart (base64 d) mimeType)
        | None => None
        end).

Definition readTextFile (filePath : string) : M (option string) := fs_read filePath.

Definition document_part (f : file) : part :=
  TextPart ("I received a " ++ (if includes (mimetype f) "pdf" then "PDF" else "Word") ++
            " document named " ++ dq ++ originalname f ++ dq ++ ". " ++
            "For better analysis, please convert this document to plain text or paste the content directly.").

(** The body of the per-file [try] of the loop, pushing onto [userParts]. *)
Definition process_file (prompt : option string) (f : file) (userParts : list part)
  : M try_result :=
  let mimeType := mimetype f in
  let filePath := path f in
  if startsWith mimeType "image/" then
    r ← fileToGenerativePart filePath mimeType ;
    match r with
    | None => mret (inr userParts)
    | Some imagePart =>
        mret (inl (userParts ++ [imagePart] ++
                   (if prompt_truthy prompt then [] else [TextPart image_instruction]))%list)
    end
  else if is_text_type mimeType then
    r ← readTextFile filePath ;
    match r with
    | None => mret (inr userParts)
    | Some textContent =>
        mret (inl (userParts ++ [text_file_part f textContent] ++
                   (if prompt_truthy prompt then [] else [TextPart summary_instruction]))%list)
    end
  else if is_document_type mimeType then
    mret (inl (userParts ++ [document_part f])%list)
  else mret (inl userParts).

(** [for (const file of files) { try {...} catch (fileErr) {...} }] *)
Fixpoint assemble_loop (prompt : option string) (files : list file) (userParts : list part)
  : M (list part) :=
  match files with
  | [] => mret userParts
  | f :: rest =>
      r ← process_file prompt f userParts ;
      userParts' ← (match r with
                    | inl ps => mret ps
                    | inr ps => log_file_error (originalname f) ;; mret ps
                    end) ;
      assemble_loop prompt rest userParts'
  end.

Definition prompt_parts (prompt : option string) : list part :=
  match prompt with
  | Some p => if prompt_truthy prompt then [TextPart p] else []
  | None => []
  end.

Definition assemble (prompt : option string) (files : list file) : M (list part) :=
  assemble_loop prompt files (prompt_parts prompt).

(** [cleanup]: unlink every uploaded file, swallowing failures. *)
Definition cleanup (files : list file) : M unit :=
  mapM_ (fun f => _ ← fs_unlink (path f) ; mret tt) files.

(** The message used by the catch block. *)
Definition error_msg (error : js_error) : string :=
  match err_message error with
  | Some m => if String.eqb m "" then err_string error else m
  | None => err_string error
  end.

(** The catch block of POST /chat after the best-effort cleanup. *)
Definition classify (cfg : config) (error : js_error) : response :=
  let msg := error_msg error in
  if includes msg "API key" || includes msg "UNAUTHENTICATED" then
    mkResp 500 (BErr "Invalid API key configuration" None)
  else if includes msg "SAFETY" then
    mkResp 400 (BErr "Content was blocked by safety filters" None)
  else if includes msg "QUOTA" || includes msg "RESOURCE_EXHAUSTED" then
    mkResp 429 (BErr "API quota exceeded. Please try again later." None)
  else
    mkResp 500 (BErr msg (if String.eqb (node_env cfg) "development"
                          then Some (err_stack error) else None)).

End Esm.

Module Cjs.

(** [fileToGenerativePart] (server.js): logs, then rethrows. *)
Definition fileToGenerativePart (filePath mimeType : string) : M (option part) :=
  fileData ← fs_read filePath ;
  match fileData with
  | Some d => mret (Some (InlinePart (base64 d) mimeType))
  | None => log "Error reading file:" ;; mret None
  end.

(** [readTextFile] (server.js): logs, then rethrows. *)
Definition readTextFile (filePath : string) : M (option string) :=
  content ← fs_read filePath ;
  match content with
  | Some c => mret (Some c)
  | None => log "Error reading text file:" ;; mret None
  end.

Definition document_part (f : file) : part :=
  TextPart ("I received a " ++ (if includes (mimetype f) "pdf" then "PDF" else "Word") ++
            " document named " ++ dq ++ originalname f ++ dq ++ ". " ++ nl ++
            "                     For better analysis, please convert this document to plain text or paste the content directly.").

(** The body of the per-file [try]: push the parts, then
    [await fs.unlink(filePath)], which throws on failure. *)
Definition process_file (prompt : option string) (f : file) (parts : list part)
  : M try_result :=
  let mimeType := mimetype f in
  let filePath := path f in
  pushed ←
    (if startsWith mimeType "image/" then
       r ← fileToGenerativePart filePath mimeType ;
       mret (match r with
             | None => None
             | Some imagePart =>
                 Some (parts ++ [imagePart] ++
                       (if prompt_truthy prompt then [] else [TextPart image_instruction]))%list
             end)
     else if is_text_type mimeType then
       r ← readTextFile filePath ;
       mret (match r with
             | None => None
             | Some textContent =>
                 Some (parts ++ [text_file_part f textContent] ++
                       (if prompt_truthy prompt then [] else [TextPart summary_instruction]))%list
             end)
     else if is_document_type mimeType then mret (Some (parts ++ [document_part f])%list)
     else mret (Some parts) : M (option (list part))) ;
  match pushed return M try_result with
  | None => mret (inr parts)
  | Some parts' =>
      removed ← fs_unlink filePath ;
      mret (match removed with true => inl parts' | false => inr parts' end)
  end.

Fixpoint assemble_loop (prompt : option string) (files : list file) (parts : list part)
  : M (list part) :=
  match files with
  | [] => mret parts
  | f :: rest =>
      r ← process_file prompt f parts ;
      parts' ← (match r with
                | inl ps => mret ps
                | inr ps => log_file_error (originalname f) ;; mret ps
                end) ;
      assemble_loop prompt rest parts'
  end.

(** [if (prompt) parts.push(prompt)] *)
Definition prompt_parts (prompt : option string) : list part :=
  match prompt with
  | Some p => if prompt_truthy prompt then [TextPart p] else []
  | None => []
  end.

Definition assemble (prompt : option string) (files : list file) : M (list part) :=
  assemble_loop prompt files (prompt_parts prompt).

(** [req.files.forEach(async (file) => { try { await fs.unlink(...) } catch ... })] *)
Definition cleanup_on_error (files : list file) : M unit :=
  mapM_ (fun f => removed ← fs_unlink (path f) ;
                  match removed with
                  | true => mret tt
                  | false => log "Error cleaning up file:"
                  end) files.

(** The catch block of POST /chat; [None]: [error.message.includes]
    throws inside the catch and no response is sent. *)
Definition classify (cfg : config) (error : js_error) : option response :=
  match err_message error with
  | None => None
  | Some m =>
      Some (if includes m "API_KEY" then
              mkResp 500 (BErr "Invalid API key configuration" None)
            else if includes m "SAFETY" then
              mkResp 400 (BErr "Content was blocked by safety filters" None)
            else if includes m "QUOTA_EXCEEDED" then
              mkResp 429 (BErr "API quota exceeded. Please try again later." None)
            else
              mkResp 500 (BErr (if String.eqb m "" then "Internal server error" else m)
                               (if String.eqb (node_env cfg) "development"
                                then Some (err_stack error) else None)))
  end.

End Cjs.

(* ================================================================= *)
(** ** The POST /chat handlers *)

(** The remote model call of each variant: the ES-module server gets a
    response object; the CommonJS server gets [result.response.text()]. *)
Definition model_fn (v : variant) : Type :=
  match v with
  | ESM => list part -> jsval + js_error
  | CJS => list part -> string + js_error
  end.

Definition invoke {R : Type} (gen : list part -> R) (parts : list part) : M R :=
  fun s => (gen parts, s, [EvInvoke parts]).

Definition missing_content (req : request) : bool :=
  negb (prompt_truthy (req_prompt req)) && Nat.eqb (length (req_files req)) 0.

Definition resp400_missing : response :=
  mkResp 400 (BErr "Please provide a prompt or upload files" None).
Definition resp500_no_key : response :=
  mkResp 500 (BErr "Gemini API key not configured" None).
Definition resp400_no_valid : response :=
  mkResp 400 (BErr "No valid content to process" None).

(** app.post("/chat", ...) in server.mjs *)
Definition chat_esm (cfg : config) (gen : model_fn ESM) (req : request)
  : M (option response) :=
  let prompt := req_prompt req in
  let files := req_files req in
  if missing_content req then
    Esm.cleanup files ;; mret (Some resp400_missing)
  else if String.eqb (google_api_key cfg) "" then
    Esm.cleanup files ;; mret (Some resp500_no_key)
  else
    userParts ← Esm.assemble prompt files ;
    Esm.cleanup files ;;
    match userParts with
    | [] => mret (Some resp400_no_valid)
    | _ :: _ =>
        result ← invoke gen userParts ;
        match result with
        | inl r => mret (Some (mkResp 200 (BOk (extractText r) (length files))))
        | inr error =>
            log "Error in chat endpoint:" ;;
            Esm.cleanup files ;;
            mret (Some (Esm.classify cfg error))
        end
    end.

(** app.post('/chat', ...) in server.js *)
Definition chat_cjs (cfg : config) (gen : model_fn CJS) (req : request)
  : M (option response) :=
  let prompt := req_prompt req in
  let files := req_files req in
  if missing_content req then mret (Some resp400_missing)
  else if String.eqb (gemini_api_key cfg) "" then mret (Some resp500_no_key)
  else
    parts ← Cjs.assemble prompt files ;
    match parts with
    | [] => mret (Some resp400_no_valid)
    | _ :: _ =>
        result ← invoke gen parts ;
        match result with
        | inl output => mret (Some (mkResp 200 (BOk (JStr output) (length files))))
        | inr error =>
            log "Error in chat endpoint:" ;;
            Cjs.cleanup_on_error files ;;
            mret (Cjs.classify cfg error)
        end
    end.

Definition chat (v : variant) (cfg : config) : model_fn v -> request -> M (option response) :=
  match v with
  | ESM => chat_esm cfg
  | CJS => chat_cjs cfg
  end.

Definition assemble (v : variant) : option string -> list file -> M (list part) :=
  match v with
  | ESM => Esm.assemble
  | CJS => Cjs.assemble
  end.

(* ================================================================= *)
(** ** The upload middleware and the error handler *)

(** The [fileFilter] allow-list (identical in both servers). *)
Definition allowed : list string :=
  ["image/jpeg"; "image/jpg"; "image/png"; "image/gif"; "image/webp";
   "text/plain"; "text/markdown"; "application/pdf"; "application/msword";
   docx_type].

Definition fileFilter (f : file) : option string :=
  if existsb (String.eqb (mimetype f)) allowed then None
  else Some ("File type " ++ mimetype f ++ " is not supported").

Record limits : Type := mkLimits { fileSize : Z; files_max : nat }.

(** [limits: { fileSize: 10 * 1024 * 1024, files: 10 }] *)
Definition upload_limits : limits := mkLimits (10 * 1024 * 1024) 10.

(** The field name and [maxCount] of [upload.array("files", 10)]. *)
Definition upload_field : string := "files".
Definition upload_maxCount : nat := 10.

(** The errors multer raises here: its MulterError codes, and the
    [Error] of the [fileFilter]. *)
Inductive upload_error : Type :=
| LIMIT_FILE_COUNT
| LIMIT_FILE_SIZE
| LIMIT_UNEXPECTED_FILE
| FilterError (message : string).

(** [error.message]: multer's texts for its codes. *)
Definition error_message (error : upload_error) : string :=
  match error with
  | LIMIT_FILE_COUNT => "Too many files"
  | LIMIT_FILE_SIZE => "File too large"
  | LIMIT_UNEXPECTED_FILE => "Unexpected field"
  | FilterError msg => msg
  end.

(** multer's [upload.array("files", 10)] over the files of the form in
    stream order (library behaviour): a file beyond [files_max] aborts
    with LIMIT_FILE_COUNT (busboy's [filesLimit]) before anything else
    looks at it; a file in another field than "files", or beyond
    [maxCount], aborts with LIMIT_UNEXPECTED_FILE; otherwise the
    [fileFilter] runs; an accepted file whose stream exceeds [fileSize]
    aborts with LIMIT_FILE_SIZE after it was stored. The first error wins
    and the route handler is not called; the error comes with the files
    already stored for the request, which multer removes before it calls
    the error handler. *)
Fixpoint multer_array (lim : limits) (seen : nat) (uploads : list file)
  : (upload_error * list file) + list file :=
  match uploads with
  | [] => inr []
  | f :: rest =>
      if Nat.leb (files_max lim) seen then inl (LIMIT_FILE_COUNT, [])
      else if negb (String.eqb (fieldname f) upload_field) || Nat.leb upload_maxCount seen
      then inl (LIMIT_UNEXPECTED_FILE, [])
      else match fileFilter f with
           | Some msg => inl (FilterError msg, [])
           | None =>
               if Z.ltb (fileSize lim) (size f) then inl (LIMIT_FILE_SIZE, [f])
               else match multer_array lim (S seen) rest with
                    | inl (e, stored) => inl (e, f :: stored)
                    | inr fs => inr (f :: fs)
                    end
           end
  end.

(** [removeUploadedFiles] with the disk storage's [_removeFile]: one
    [fs.unlink] per stored file, in turn; failures are collected and
    ignored. *)
Definition remove_uploaded (stored : list file) : M unit :=
  mapM_ (fun f => _ ← fs_unlink (path f) ; mret tt) stored.

(** The error-handling middleware (identical in both servers). *)
Definition error_handler (error : upload_error) : M (option response) :=
  match error with
  | LIMIT_FILE_SIZE => mret (Some (mkResp 400 (BErr "File too large. Maximum size is 10MB." None)))
  | LIMIT_FILE_COUNT => mret (Some (mkResp 400 (BErr "Too many files. Maximum is 10 files." None)))
  | _ =>
      log "Unhandled error:" ;;
      mret (Some (mkResp 500 (BErr (if String.eqb (error_message error) ""
                                    then "Internal server error"
                                    else error_message error) None)))
  end.

(** A POST /chat request through the upload middleware, then the route. *)
Definition serve (v : variant) (cfg : config) (gen : model_fn v)
  (prompt : option string) (uploads : list file) : M (option response) :=
  match multer_array upload_limits 0 uploads with
  | inl (e, stored) => remove_uploaded stored ;; error_handler e
  | inr files => chat v cfg gen (mkReq prompt files)
  end.

(* ================================================================= *)
(** ** Trace observations *)

Definition is_read (e : event) : bool := match e with EvRead _ => true | _ => false end.
Definition is_invoke (e : event) : bool := match e with EvInvoke _ => true | _ => false end.

Definition unlink_attempts (p : string) (t : list event) : nat :=
  length (List.filter (fun e => match e with EvUnlink q _ => String.eqb q p | _ => false end) t).

(** Some model invocation of the trace failed. *)
Definition invocation_failed {R S : Type} (gen : list part -> R + S) (t : list event) : bool :=
  existsb (fun e => match e with
                    | EvInvoke ps => match gen ps with inr _ => true | inl _ => false end
                    | _ => false
                    end) t.

(* ================================================================= *)
(** ** Small inputs *)

Definition cfg0 : config := mkCfg "k" "k" "production".
Definition txtA : file := mkFile "files" "A" "text/plain" 3 "uploads/a".
Definition txtB : file := mkFile "files" "B" "text/plain" 3 "uploads/b".
Definition fs_ab : fsys :=
  mkFs (<["uploads/a" := "aaa"]> (<["uploads/b" := "bbb"]> ∅)) ∅.


(** A PDF upload. *)
Definition pdfP : file := mkFile "files" "P.pdf" "application/pdf" 5 "uploads/p".

(** Only A's upload is on disk. *)
Definition fs_a_only : fsys := mkFs (<["uploads/a" := "aaa"]> ∅) ∅.

(** A's upload is readable but cannot be removed. *)
Definition fs_a_locked : fsys := mkFs (contents fs_ab) {["uploads/a"]}.

(* ================================================================= *)
(** ** What one attachment contributes *)

Definition try_parts (r : try_result) : list part :=
  match r with inl ps => ps | inr ps => ps end.

Definition needs_read (f : file) : bool :=
  startsWith (mimetype f) "image/" || is_text_type (mimetype f).

(** The parts an attachment contributes, as a function of what is
    stored at its path ([None]: the read fails). *)
Definition file_parts (v : variant) (prompt : option string) (f : file)
  (stored : option string) : list part :=
  let mimeType := mimetype f in
  if startsWith mimeType "image/" then
    match stored with
    | Some d => InlinePart (base64 d) mimeType ::
                  (if prompt_truthy prompt then [] else [TextPart image_instruction])
    | None => []
    end
  else if is_text_type mimeType then
    match stored with
    | Some c => text_file_part f c ::
                  (if prompt_truthy prompt then [] else [TextPart summary_instruction])
    | None => []
    end
  else if is_document_type mimeType then
    [match v with ESM => Esm.document_part f | CJS => Cjs.document_part f end]
  else [].

(* ----------------------------------------------------------------- *)
(** *** The three normalisation strategies, each on its own *)

(** An own data property [k] of an object. *)
Definition field (v : jsval) (k : string) : option jsval :=
  match v with JObj fs => assoc k fs | _ => None end.

(** Element 0 of an array (or of an object with an own ["0"]). *)
Definition index0 (v : jsval) : option jsval :=
  match v with
  | JArr (x :: _) => Some x
  | JObj fs => assoc "0" fs
  | _ => None
  end.

(** Strategy 1: the response supports a [text()] method; its result. *)
Definition text_capability (v : jsval) : option jsval :=
  match field v "text" with Some (JFun r) => Some r | _ => None end.

(** Strategy 2: the list [candidates[0].content.parts], when it is one. *)
Definition first_candidate_parts (v : jsval) : option (list jsval) :=
  match field v "candidates" with
  | Some cs =>
      match index0 cs with
      | Some c =>
          match field c "content" with
          | Some ct => match field ct "parts" with Some (JArr ps) => Some ps | _ => None end
          | None => None
          end
      | None => None
      end
  | None => None
  end.

(** The text carried by a part, when it carries a string [text]. *)
Definition text_of (p : jsval) : string :=
  match field p "text" with Some (JStr s) => s | _ => "" end.

(** The three strategies, tried in order. *)
Definition normalise_in_order (v : jsval) : jsval :=
  match text_capability v with
  | Some r => r
  | None =>
      match first_candidate_parts v with
      | Some ps => JStr (String.concat "" (map text_of ps))
      | None => match stringify v with Some s => JStr s | None => JUndef end
      end
  end.

(* ----------------------------------------------------------------- *)
(** *** Observations and parameters used by the statements *)

(** A trace of reads and logs only: no removal, no model call. *)
Definition quiet (t : list event) : bool :=
  forallb (fun e => match e with EvUnlink _ _ | EvInvoke _ => false | _ => true end) t.

Definition no_invoke (t : list event) : bool :=
  forallb (fun e => negb (is_invoke e)) t.

Definition api_key (v : variant) (cfg : config) : string :=
  match v with ESM => google_api_key cfg | CJS => gemini_api_key cfg end.

Definition is_ok_body (r : option response) : bool :=
  match r with Some (mkResp _ (BOk _ _)) => true | _ => false end.


(* ================================================================= *)
(** ** Concrete inputs *)

Definition gen_fail : model_fn ESM :=
  fun _ => inr (mkErr (Some "fetch failed") "TypeError: fetch failed" "TypeError: fetch failed").

Definition gen_hello : model_fn ESM :=
  fun _ => inl (JObj [("candidates", JArr [JObj [("content",
                 JObj [("parts", JArr [JObj [("text", JStr "hello")]])])]])]).

Definition req_hi_a : request := mkReq (Some "hi") [txtA].

(* ----------------------------------------------------------------- *)
(** *** Tactics *)

Ltac mrun :=
  repeat (unfold mbind, mret, M_bind, M_ret, fs_read, fs_unlink, log, log_file_error,
          invoke in *);
  simpl in *.

Ltac mrun0 :=
  repeat (unfold mbind, mret, M_bind, M_ret, fs_read, log, log_file_error,
          invoke in *);
  simpl in *.

Ltac unbind := cbv [mbind M_bind mret M_ret].
Tactic Notation "unbind" "in" hyp(H) := cbv [mbind M_bind mret M_ret] in H.

Ltac innermost e :=
  lazymatch e with
  | context [match _ with _ => _ end] => fail
  | _ => idtac
  end.

Ltac split_runs H :=
  repeat (cbv beta iota in H;
          match type of H with
          | context [match ?e with pair _ _ => _ end] => innermost e; destruct e
          | context [match ?e with inl _ => _ | inr _ => _ end] => innermost e; destruct e
          | context [match ?e with [] => _ | _ :: _ => _ end] => innermost e; destruct e
          end).

(* ================================================================= *)
(** ** What a computation leaves alone *)

(** [m] never changes which paths are locked, and never changes what is
    stored at a path outside [P]. *)
Definition keeps_outside {A : Type} (P : string -> Prop) (m : M A) : Prop :=
  forall s, locked (snd (fst (m s))) = locked s /\
            forall q, ~ P q -> contents (snd (fst (m s))) !! q = contents s !! q.

(** The read of an upload that needs one fails (nothing stored). *)
Definition read_fails (f : file) (s : fsys) : bool :=
  needs_read f && match contents s !! path f with Some _ => false | None => true end.

(** [fs.unlink(p)] succeeds: the path is not locked and holds a file. *)
Definition unlink_ok (p : string) (s : fsys) : bool :=
  if bool_decide (p ∈ locked s) then false
  else match contents s !! p with Some _ => true | None => false end.

(** The events of one upload during server.js assembly: a failed read
    ends with the processing error; otherwise the read (image and text
    files only) is directly followed by the removal attempt, and a failed
    removal is logged as a processing error of the upload. *)
Definition cjs_segment (f : file) (s : fsys) (seg : list event) : Prop :=
  if read_fails f s then
    exists m, seg = [EvRead (path f); EvLog m; EvLogFileError (originalname f)]
  else
    seg = ((if needs_read f then [EvRead (path f)] else []) ++
           EvUnlink (path f) (unlink_ok (path f) s) ::
           (if unlink_ok (path f) s then [] else [EvLogFileError (originalname f)]))%list.

(* ================================================================= *)
(** ** GET /health *)

(** [MODEL_ID] (server.mjs) *)
Definition MODEL_ID : string := "gemini-2.0-flash".

(** The JSON body of GET /health; [now] is [new Date().toISOString()].
    server.mjs reports [Boolean(apiKey)], server.js
    [!!process.env.GEMINI_API_KEY]. *)
Definition health (v : variant) (cfg : config) (now : string) : jsval :=
  match v with
  | ESM => JObj [("status", JStr "healthy"); ("timestamp", JStr now);
                 ("geminiConfigured", JBool (negb (String.eqb (google_api_key cfg) "")));
                 ("model", JStr MODEL_ID)]
  | CJS => JObj [("status", JStr "healthy"); ("timestamp", JStr now);
                 ("geminiConfigured", JBool (negb (String.eqb (gemini_api_key cfg) "")))]
  end.

(* ================================================================= *)
(** ** GET /test-gemini *)

Record test_response : Type := mkTestResp {
  tstatus : Z;
  tbody : jsval
}.

(** The fixed text each server sends to the model (server.js passes a
    string, which its SDK turns into the single part [{ text }]). *)
Definition test_prompt (v : variant) : string :=
  match v with
  | ESM => "Respond exactly with: Gemini AI is working correctly!"
  | CJS => "Hello, please respond with 'Gemini AI is working correctly!'"
  end.

Definition test_no_key : test_response :=
  mkTestResp 500 (JObj [("error", JStr "Gemini API key not configured")]).

(** The catch block: [details: error.message]. *)
Definition test_failed (error : js_error) : test_response :=
  mkTestResp 500 (JObj [("error", JStr "Failed to connect to Gemini AI");
                        ("details", match err_message error with
                                    | Some m => JStr m
                                    | None => JUndef
                                    end)]).

(** app.get("/test-gemini", ...) in server.mjs *)
Definition test_gemini_esm (cfg : config) (gen : model_fn ESM) : M test_response :=
  if String.eqb (google_api_key cfg) "" then mret test_no_key
  else
    result ← invoke gen [TextPart (test_prompt ESM)] ;
    match result with
    | inl r => mret (mkTestResp 200 (JObj [("status", JStr "success");
                                           ("message", extractText r)]))
    | inr error => log "Gemini test error:" ;; mret (test_failed error)
    end.

(** app.get('/test-gemini', ...) in server.js; [gen] includes
    [response.text()]. *)
Definition test_gemini_cjs (cfg : config) (gen : model_fn CJS) : M test_response :=
  if String.eqb (gemini_api_key cfg) "" then mret test_no_key
  else
    result ← invoke gen [TextPart (test_prompt CJS)] ;
    match result with
    | inl output => mret (mkTestResp 200 (JObj [("status", JStr "success");
                                                ("message", JStr output)]))
    | inr error => log "Gemini test error:" ;; mret (test_failed error)
    end.

Definition test_gemini (v : variant) (cfg : config) : model_fn v -> M test_response :=
  match v with
  | ESM => test_gemini_esm cfg
  | CJS => test_gemini_cjs cfg
  end.

(* ================================================================= *)
(** ** Stored file names: [path.extname] and multer's [filename] *)

(** The local variables of Node's posix [path.extname]. *)
Record ext_state : Type := mkExt {
  startDot : Z;
  startPart : Z;
  end_ : Z;
  matchedSlash : bool;
  preDotState : Z
}.

Definition ext_init : ext_state := mkExt (-1) 0 (-1) true 0.

(** The body of the loop for a character [code] at index [i] that is not
    a [/]. *)
Definition ext_nonslash (i : Z) (code : ascii) (st : ext_state) : ext_state :=
  let st1 := if Z.eqb (end_ st) (-1)
             then mkExt (startDot st) (startPart st) (i + 1) false (preDotState st)
             else st in
  if Ascii.eqb code "."%char then
    if Z.eqb (startDot st1) (-1)
    then mkExt i (startPart st1) (end_ st1) (matchedSlash st1) (preDotState st1)
    else if negb (Z.eqb (preDotState st1) 1)
    then mkExt (startDot st1) (startPart st1) (end_ st1) (matchedSlash st1) 1
    else st1
  else if negb (Z.eqb (startDot st1) (-1))
  then mkExt (startDot st1) (startPart st1) (end_ st1) (matchedSlash st1) (-1)
  else st1.

(** [for (let i = path.length - 1; i >= 0; --i)]: the fuel counts the
    indices still to visit, so [i >= 0] holds while it is positive. A [/]
    seen after a non-[/] character ends the loop ([break]). *)
Fixpoint extname_loop (fuel : nat) (p : string) (i : Z) (st : ext_state) : ext_state :=
  match fuel with
  | O => st
  | S fuel' =>
      match String.get (Z.to_nat i) p with
      | None => st
      | Some code =>
          if Ascii.eqb code "/"%char then
            if negb (matchedSlash st)
            then mkExt (startDot st) (i + 1) (end_ st) (matchedSlash st) (preDotState st)
            else extname_loop fuel' p (i - 1) st
          else extname_loop fuel' p (i - 1) (ext_nonslash i code st)
      end
  end.

(** [path.extname(path)] (posix). *)
Definition extname (p : string) : string :=
  let st := extname_loop (String.length p) p (Z.of_nat (String.length p) - 1) ext_init in
  if Z.eqb (startDot st) (-1) || Z.eqb (end_ st) (-1) || Z.eqb (preDotState st) 0 ||
     (Z.eqb (preDotState st) 1 && Z.eqb (startDot st) (end_ st - 1) &&
      Z.eqb (startDot st) (startPart st + 1))
  then ""
  else substring (Z.to_nat (startDot st)) (Z.to_nat (end_ st - startDot st)) p.

(** [Date.now() + "-" + Math.round(Math.random() * 1e9)] for the two
    integers [now] and [rnd]. *)
Definition uniqueSuffix (now rnd : Z) : string :=
  Z_to_decimal now ++ "-" ++ Z_to_decimal rnd.

(** The [filename] callback of [multer.diskStorage] (both servers):
    [file.fieldname + "-" + uniqueSuffix + path.extname(file.originalname)]. *)
Definition storage_filename (fieldname originalname : string) (now rnd : Z) : string :=
  fieldname ++ "-" ++ uniqueSuffix now rnd ++ extname originalname.

(** Whether the character [c] occurs in [s]. *)
Fixpoint has_char (c : ascii) (s : string) : bool :=
  match s with
  | EmptyString => false
  | String c' s' => Ascii.eqb c c' || has_char c s'
  end.

(** Index [j] of [p] holds a character other than [.] and [/]. *)
Definition ext_ok (p : string) (j : Z) : Prop :=
  exists c, String.get (Z.to_nat j) p = Some c /\ c <> "."%char /\ c <> "/"%char.

(** What the loop of [extname] knows once indices [m .. length p - 1]
    are visited: the extension found so far is a [.] followed by
    characters other than [.] and [/]. *)
Definition ext_inv (p : string) (m : Z) (st : ext_state) : Prop :=
  ((end_ st = -1 -> startDot st = -1 /\ matchedSlash st = true) /\
   (end_ st <> -1 -> matchedSlash st = false /\ m < end_ st) /\
   (startDot st = -1 -> forall j, m <= j < end_ st -> ext_ok p j) /\
   (startDot st <> -1 -> m <= startDot st < end_ st /\
      String.get (Z.to_nat (startDot st)) p = Some "."%char /\
      forall j, startDot st < j < end_ st -> ext_ok p j))%Z.

(* ================================================================= *)
(** ** Sanity checks of the helpers *)

Example base64_Man : base64 "Man" = "TWFu". Proof. reflexivity. Qed.
Example base64_Ma : base64 "Ma" = "TWE=". Proof. reflexivity. Qed.
Example decimal_1024 : Z_to_decimal 1024 = "1024". Proof. reflexivity. Qed.
Example stringify_obj :
  stringify (JObj [("a", JNum 1); ("f", JFun JNull); ("b", JArr [JUndef; JStr "x"])])
  = Some ("{" ++ dq ++ "a" ++ dq ++ ":1," ++ dq ++ "b" ++ dq ++ ":[null," ++ dq ++ "x" ++ dq ++ "]}").
Proof. reflexivity. Qed.

Lemma quiet_app (t1 t2 : list event) : quiet (t1 ++ t2) = quiet t1 && quiet t2.
Proof. unfold quiet. apply forallb_app. Qed.

Lemma esm_process_file (prompt : option string) (f : file) (acc : list part) (s : fsys) :
  exists r t, Esm.process_file prompt f acc s = (r, s, t) /\
    try_parts r = (acc ++ file_parts ESM prompt f (contents s !! path f))%list /\
    (needs_read f = true -> contents s !! path f = None -> r = inr acc) /\
    quiet t = true.
Proof.
  unfold Esm.process_file, file_parts, needs_read, Esm.fileToGenerativePart,
    Esm.readTextFile.
  destruct (startsWith (mimetype f) "image/") eqn:Himg.
  - mrun. destruct (contents s !! path f) eqn:Hc; simpl.
    + eexists _, _. split; [reflexivity|]. simpl. repeat split; try discriminate.
    + eexists _, _. split; [reflexivity|]. simpl. repeat split.
      now rewrite app_nil_r.
  - destruct (is_text_type (mimetype f)) eqn:Htxt.
    + mrun. destruct (contents s !! path f) eqn:Hc; simpl.
      * eexists _, _. split; [reflexivity|]. simpl. repeat split; try discriminate.
      * eexists _, _. split; [reflexivity|]. simpl. repeat split.
        now rewrite app_nil_r.
    + destruct (is_document_type (mimetype f)); mrun.
      * eexists _, _. split; [reflexivity|]. repeat split; discriminate.
      * eexists _, _. split; [reflexivity|]. repeat split; try discriminate.
        now rewrite app_nil_r.
Qed.

Lemma fs_unlink_spec (p : string) (s : fsys) (b : bool) (s1 : fsys) (t : list event) :
  fs_unlink p s = (b, s1, t) ->
  t = [EvUnlink p b] /\ locked s1 = locked s /\
  (forall q, q <> p -> contents s1 !! q = contents s !! q) /\
  (contents s1 !! p = None \/ p ∈ locked s).
Proof.
  unfold fs_unlink. case_bool_decide.
  - intros [= <- <- <-]. auto.
  - destruct (contents s !! p) eqn:Hc; intros [= <- <- <-]; simpl;
      repeat split; auto.
    + intros q Hq. apply lookup_delete_ne. congruence.
    + left. apply lookup_delete_eq.
Qed.

Lemma cjs_process_file (prompt : option string) (f : file) (acc : list part) (s : fsys) :
  exists r s1 t, Cjs.process_file prompt f acc s = (r, s1, t) /\
    try_parts r = (acc ++ file_parts CJS prompt f (contents s !! path f))%list /\
    (needs_read f = true -> contents s !! path f = None -> r = inr acc) /\
    (forall q, q <> path f -> contents s1 !! q = contents s !! q) /\
    forallb (fun e => negb (is_invoke e)) t = true.
Proof.
  unfold Cjs.process_file, file_parts, needs_read, Cjs.fileToGenerativePart,
    Cjs.readTextFile.
  destruct (startsWith (mimetype f) "image/") eqn:Himg;
  [|destruct (is_text_type (mimetype f)) eqn:Htxt;
    [|destruct (is_document_type (mimetype f)) eqn:Hdoc]];
  mrun0;
  try (destruct (contents s !! path f) eqn:Hc); simpl;
  try (destruct (fs_unlink (path f) s) as [[b s1] t1] eqn:Hu;
       destruct (fs_unlink_spec _ _ _ _ _ Hu) as (-> & _ & Hother & _);
       simpl);
  (eexists _, _, _; split; [reflexivity|]);
  try (destruct b);
  simpl; rewrite ?app_nil_r; repeat split; try discriminate; try reflexivity;
  intros q Hq; first [reflexivity | now apply Hother].
Qed.

Lemma quiet_no_invoke (t : list event) : quiet t = true -> no_invoke t = true.
Proof.
  unfold quiet, no_invoke. rewrite !forallb_forall.
  intros H e He. specialize (H e He). destruct e; simpl in *; congruence.
Qed.

Lemma esm_assemble_loop (prompt : option string) (files : list file) :
  forall (acc : list part) (s : fsys),
  exists ps t, Esm.assemble_loop prompt files acc s = (ps, s, t) /\
    ps = (acc ++ concat (map (fun f => file_parts ESM prompt f (contents s !! path f)) files))%list /\
    (forall f, In f files -> needs_read f = true -> contents s !! path f = None ->
       In (EvLogFileError (originalname f)) t) /\
    quiet t = true.
Proof.
  induction files as [|f rest IH]; intros acc s.
  - exists acc, []. simpl. rewrite app_nil_r. repeat split; auto.
  - destruct (esm_process_file prompt f acc s) as (r & t1 & Hpf & Hparts & Hfail & Hq1).
    cbn [Esm.assemble_loop]. unfold mbind at 1, M_bind at 1. rewrite Hpf.
    set (acc' := try_parts r).
    assert (Hstep : exists t2, (match r with
                     | inl ps => mret ps
                     | inr ps => log_file_error (originalname f) ;; mret ps
                     end : M (list part)) s = (acc', s, t2) /\ quiet t2 = true /\
                     (needs_read f = true -> contents s !! path f = None ->
                        In (EvLogFileError (originalname f)) t2)).
    { destruct r as [ps|ps]; mrun0.
      - exists []. split; [reflexivity|]. split; [reflexivity|].
        intros Hn Hc. specialize (Hfail Hn Hc). discriminate.
      - eexists. split; [reflexivity|]. split; [reflexivity|].
        intros _ _. now left. }
    destruct Hstep as (t2 & Hs2 & Hq2 & Hl2).
    unfold mbind at 1, M_bind at 1. rewrite Hs2.
    destruct (IH acc' s) as (ps & t3 & Hl & Hps & Hlog & Hq3).
    rewrite Hl. eexists _, _. split; [reflexivity|]. split; [|split].
    + rewrite Hps. unfold acc'. rewrite Hparts. simpl. now rewrite app_assoc.
    + intros g [<-|Hin] Hn Hc; rewrite !in_app_iff.
      * right; left; auto.
      * right; right; auto.
    + rewrite !quiet_app, Hq1, Hq2, Hq3. reflexivity.
Qed.

Lemma no_invoke_app (t1 t2 : list event) :
  no_invoke (t1 ++ t2) = no_invoke t1 && no_invoke t2.
Proof. unfold no_invoke. apply forallb_app. Qed.

Lemma cjs_assemble_loop (prompt : option string) (files : list file) :
  forall (acc : list part) (s : fsys),
  NoDup (map path files) ->
  exists ps s' t, Cjs.assemble_loop prompt files acc s = (ps, s', t) /\
    ps = (acc ++ concat (map (fun f => file_parts CJS prompt f (contents s !! path f)) files))%list /\
    (forall f, In f files -> needs_read f = true -> contents s !! path f = None ->
       In (EvLogFileError (originalname f)) t) /\
    no_invoke t = true.
Proof.
  induction files as [|f rest IH]; intros acc s Hnd.
  - exists acc, s, []. simpl. rewrite app_nil_r. repeat split; auto.
  - simpl in Hnd. inversion Hnd as [|x l Hnotin Hnd']; subst.
    destruct (cjs_process_file prompt f acc s)
      as (r & s1 & t1 & Hpf & Hparts & Hfail & Hother & Hq1).
    cbn [Cjs.assemble_loop]. unfold mbind at 1, M_bind at 1. rewrite Hpf.
    set (acc' := try_parts r).
    assert (Hstep : exists t2, (match r with
                     | inl ps => mret ps
                     | inr ps => log_file_error (originalname f) ;; mret ps
                     end : M (list part)) s1 = (acc', s1, t2) /\ no_invoke t2 = true /\
                     (needs_read f = true -> contents s !! path f = None ->
                        In (EvLogFileError (originalname f)) t2)).
    { destruct r as [ps|ps]; mrun0.
      - exists []. split; [reflexivity|]. split; [reflexivity|].
        intros Hn Hc. specialize (Hfail Hn Hc). discriminate.
      - eexists. split; [reflexivity|]. split; [reflexivity|].
        intros _ _. now left. }
    destruct Hstep as (t2 & Hs2 & Hq2 & Hl2).
    unfold mbind at 1, M_bind at 1. rewrite Hs2.
    destruct (IH acc' s1 Hnd') as (ps & s' & t3 & Hl & Hps & Hlog & Hq3).
    assert (Hagree : forall g, In g rest -> contents s1 !! path g = contents s !! path g).
    { intros g Hg. apply Hother. intros Heq. apply Hnotin.
      rewrite <- Heq. apply list_elem_of_In. now apply in_map. }
    rewrite Hl. eexists _, _, _. split; [reflexivity|]. split; [|split].
    + rewrite Hps. unfold acc'. rewrite Hparts. simpl. rewrite <- app_assoc.
      f_equal. f_equal. f_equal. apply map_ext_in. intros g Hg. now rewrite Hagree.
    + intros g [<-|Hin] Hn Hc; rewrite !in_app_iff.
      * right; left; auto.
      * right; right. apply Hlog; auto. now rewrite Hagree.
    + rewrite !no_invoke_app. unfold no_invoke at 1. rewrite Hq1, Hq2, Hq3.
      reflexivity.
Qed.

Lemma assemble_parts (v : variant) (prompt : option string) (files : list file) (s : fsys) :
  NoDup (map path files) ->
  exists ps s' t, assemble v prompt files s = (ps, s', t) /\
    ps = (Esm.prompt_parts prompt ++
          concat (map (fun f => file_parts v prompt f (contents s !! path f)) files))%list /\
    (forall f, In f files -> needs_read f = true -> contents s !! path f = None ->
       In (EvLogFileError (originalname f)) t) /\
    no_invoke t = true.
Proof.
  intros Hnd. destruct v; simpl.
  - destruct (esm_assemble_loop prompt files (Esm.prompt_parts prompt) s)
      as (ps & t & Hl & Hps & Hlog & Hq).
    exists ps, s, t. unfold Esm.assemble. rewrite Hl. repeat split; auto.
    now apply quiet_no_invoke.
  - destruct (cjs_assemble_loop prompt files (Cjs.prompt_parts prompt) s Hnd)
      as (ps & s' & t & Hl & Hps & Hlog & Hq).
    exists ps, s', t. unfold Cjs.assemble. rewrite Hl. repeat split; auto.
Qed.

(* ----------------------------------------------------------------- *)
(** *** Removal of the uploaded files *)

Lemma unlink_attempts_app (p : string) (t1 t2 : list event) :
  unlink_attempts p (t1 ++ t2) = unlink_attempts p t1 + unlink_attempts p t2.
Proof. unfold unlink_attempts. now rewrite List.filter_app, List.length_app. Qed.

Lemma unlink_attempts_quiet (p : string) (t : list event) :
  quiet t = true -> unlink_attempts p t = 0.
Proof.
  induction t as [|e t IH]; [reflexivity|].
  simpl. intros H. apply andb_prop in H as [He Ht].
  destruct e; simpl in *; try discriminate; auto.
Qed.

Lemma invocation_failed_app {R S : Type} (gen : list part -> R + S) (t1 t2 : list event) :
  invocation_failed gen (t1 ++ t2) = invocation_failed gen t1 || invocation_failed gen t2.
Proof. unfold invocation_failed. apply existsb_app. Qed.

Lemma invocation_failed_no_invoke {R S : Type} (gen : list part -> R + S) (t : list event) :
  no_invoke t = true -> invocation_failed gen t = false.
Proof.
  induction t as [|e t IH]; [reflexivity|].
  simpl. intros H. apply andb_prop in H as [He Ht].
  destruct e; simpl in *; try discriminate; auto.
Qed.

Lemma esm_cleanup_spec (files : list file) :
  forall s, exists s' t, Esm.cleanup files s = (tt, s', t) /\
    locked s' = locked s /\
    (forall p, unlink_attempts p t = count_occ string_dec (map path files) p) /\
    (forall p, In p (map path files) -> contents s' !! p = None \/ p ∈ locked s) /\
    (forall p, contents s !! p = None -> contents s' !! p = None) /\
    no_invoke t = true.
Proof.
  induction files as [|f rest IH]; intros s.
  - exists s, []. repeat split; auto. contradiction.
  - cbn [Esm.cleanup mapM_]. fold (Esm.cleanup rest).
    destruct (fs_unlink (path f) s) as [[b s1] t1] eqn:Hu.
    destruct (fs_unlink_spec _ _ _ _ _ Hu) as (-> & Hlk1 & Hoth1 & Hgone1).
    destruct (IH s1) as (s' & t2 & Hc & Hlk2 & Hcnt & Hgone2 & Hmono & Hq).
    mrun0. rewrite Hu. mrun0. rewrite Hc.
    eexists _, _. split; [reflexivity|].
    split; [congruence|]. split; [|split; [|split]].
    + intros p.
      change (EvUnlink (path f) b :: t2) with ([EvUnlink (path f) b] ++ t2)%list.
      rewrite unlink_attempts_app, Hcnt. unfold unlink_attempts at 1. simpl.
      destruct (string_dec (path f) p) as [->|Hne].
      * now rewrite String.eqb_refl.
      * now rewrite (proj2 (String.eqb_neq _ _) Hne).
    + intros p [<-|Hin].
      * destruct Hgone1 as [Hn|Hl]; [left; now apply Hmono|right; exact Hl].
      * rewrite <- Hlk1. now apply Hgone2.
    + intros p Hp. apply Hmono.
      destruct (string_dec p (path f)) as [->|Hne].
      * destruct Hgone1 as [Hn|Hl]; [exact Hn|].
        unfold fs_unlink in Hu. rewrite (bool_decide_eq_true_2 _ Hl) in Hu.
        inversion Hu; subst; exact Hp.
      * rewrite Hoth1 by exact Hne. exact Hp.
    + exact Hq.
Qed.

Lemma count_occ_NoDup_In (files : list file) (f : file) :
  NoDup (map path files) -> In f files ->
  count_occ string_dec (map path files) (path f) = 1.
Proof.
  intros Hnd Hin. apply NoDup_ListNoDup in Hnd.
  pose proof (proj1 (NoDup_count_occ string_dec _) Hnd (path f)) as Hle.
  assert (Hpos : count_occ string_dec (map path files) (path f) > 0).
  { apply count_occ_In. now apply in_map. }
  lia.
Qed.

Lemma esm_assemble (prompt : option string) (files : list file) (s : fsys) :
  exists t, Esm.assemble prompt files s =
    ((Esm.prompt_parts prompt ++
      concat (map (fun f => file_parts ESM prompt f (contents s !! path f)) files))%list,
     s, t) /\ quiet t = true.
Proof.
  destruct (esm_assemble_loop prompt files (Esm.prompt_parts prompt) s)
    as (ps & t & Hl & Hps & _ & Hq).
  exists t. unfold Esm.assemble. rewrite Hl, Hps. auto.
Qed.

(** The ES-module handler's response reads only the stored contents:
    whether a removal fails never changes it. *)
Lemma chat_esm_response_contents (cfg : config) (gen : model_fn ESM) (req : request)
  (s1 s2 : fsys) :
  contents s1 = contents s2 ->
  fst (fst (chat_esm cfg gen req s1)) = fst (fst (chat_esm cfg gen req s2)).
Proof.
  intros Hc. unfold chat_esm.
  destruct (missing_content req); [|destruct (String.eqb (google_api_key cfg) "")].
  - unbind.
    destruct (esm_cleanup_spec (req_files req) s1) as (? & ? & -> & _).
    destruct (esm_cleanup_spec (req_files req) s2) as (? & ? & -> & _).
    reflexivity.
  - unbind.
    destruct (esm_cleanup_spec (req_files req) s1) as (? & ? & -> & _).
    destruct (esm_cleanup_spec (req_files req) s2) as (? & ? & -> & _).
    reflexivity.
  - unbind.
    destruct (esm_assemble (req_prompt req) (req_files req) s1) as (ta & -> & _).
    destruct (esm_assemble (req_prompt req) (req_files req) s2) as (tb & -> & _).
    rewrite Hc.
    destruct (esm_cleanup_spec (req_files req) s1) as (u1 & ? & -> & _).
    destruct (esm_cleanup_spec (req_files req) s2) as (u2 & ? & -> & _).
    set (ps := (Esm.prompt_parts (req_prompt req) ++ _)%list).
    destruct ps as [|p0 ps']; [reflexivity|].
    cbv [invoke].
    destruct (gen (p0 :: ps')) as [r|e]; [reflexivity|].
    cbv [log].
    destruct (esm_cleanup_spec (req_files req) u1) as (? & ? & -> & _).
    destruct (esm_cleanup_spec (req_files req) u2) as (? & ? & -> & _).
    reflexivity.
Qed.

Lemma chat_esm_cleanup (cfg : config) (gen : model_fn ESM) (req : request) (s : fsys)
  (resp : option response) (s' : fsys) (t : list event) :
  NoDup (map path (req_files req)) ->
  chat_esm cfg gen req s = (resp, s', t) ->
  forall f, In f (req_files req) ->
    unlink_attempts (path f) t = (if invocation_failed gen t then 2 else 1) /\
    (contents s' !! path f = None \/ path f ∈ locked s).
Proof.
  intros Hnd Hrun f Hin.
  pose proof (count_occ_NoDup_In _ _ Hnd Hin) as Hone.
  unfold chat_esm in Hrun.
  destruct (missing_content req); [|destruct (String.eqb (google_api_key cfg) "")];
    unbind in Hrun.
  - destruct (esm_cleanup_spec (req_files req) s)
      as (s1 & t1 & Hc1 & Hlk1 & Hcnt1 & Hgone1 & _ & Hq1).
    rewrite Hc1 in Hrun. injection Hrun as <- <- <-.
    rewrite app_nil_r, (invocation_failed_no_invoke _ _ Hq1), Hcnt1, Hone.
    split; [reflexivity|]. apply Hgone1. now apply in_map.
  - destruct (esm_cleanup_spec (req_files req) s)
      as (s1 & t1 & Hc1 & Hlk1 & Hcnt1 & Hgone1 & _ & Hq1).
    rewrite Hc1 in Hrun. injection Hrun as <- <- <-.
    rewrite app_nil_r, (invocation_failed_no_invoke _ _ Hq1), Hcnt1, Hone.
    split; [reflexivity|]. apply Hgone1. now apply in_map.
  - destruct (esm_assemble (req_prompt req) (req_files req) s) as (ta & Ha & Hqa).
    rewrite Ha in Hrun. cbv beta iota in Hrun.
    destruct (esm_cleanup_spec (req_files req) s)
      as (s1 & t1 & Hc1 & Hlk1 & Hcnt1 & Hgone1 & _ & Hq1).
    rewrite Hc1 in Hrun. cbv beta iota in Hrun.
    assert (Hg1 : contents s1 !! path f = None \/ path f ∈ locked s)
      by (apply Hgone1; now apply in_map).
    assert (Hna : invocation_failed gen ta = false)
      by (apply invocation_failed_no_invoke, quiet_no_invoke, Hqa).
    assert (Hza : unlink_attempts (path f) ta = 0) by (apply unlink_attempts_quiet, Hqa).
    assert (Hn1 : invocation_failed gen t1 = false) by (apply invocation_failed_no_invoke, Hq1).
    set (ps := (Esm.prompt_parts (req_prompt req) ++ _)%list) in Hrun.
    destruct ps as [|p0 ps'].
    + injection Hrun as <- <- <-.
      rewrite !invocation_failed_app, !unlink_attempts_app, Hna, Hn1, Hza, Hcnt1, Hone.
      simpl. auto.
    + cbv [invoke] in Hrun.
      destruct (gen (p0 :: ps')) as [r|e] eqn:Hgen.
      * injection Hrun as <- <- <-.
        rewrite !invocation_failed_app, !unlink_attempts_app, Hna, Hn1, Hza, Hcnt1, Hone.
        unfold invocation_failed at 1. simpl. rewrite Hgen. simpl. auto.
      * cbv [log] in Hrun.
        destruct (esm_cleanup_spec (req_files req) s1)
          as (s2 & t2 & Hc2 & Hlk2 & Hcnt2 & Hgone2 & Hmono2 & Hq2).
        rewrite Hc2 in Hrun. cbv beta iota in Hrun. injection Hrun as <- <- <-.
        rewrite !invocation_failed_app, !unlink_attempts_app, Hna, Hn1, Hza, Hcnt1, Hone.
        change (unlink_attempts (path f)
                  (EvInvoke (p0 :: ps') :: EvLog "Error in chat endpoint:" :: t2 ++ []))
          with (unlink_attempts (path f) (t2 ++ [])).
        rewrite app_nil_r, Hcnt2, Hone.
        unfold invocation_failed at 1. simpl. rewrite Hgen. simpl.
        split; [reflexivity|].
        destruct Hg1 as [Hn|Hl]; [left; now apply Hmono2|now right].
Qed.

(* ----------------------------------------------------------------- *)
(** *** The handler after its two early checks *)

Lemma chat_after_checks (v : variant) (cfg : config) (gen : model_fn v) (req : request)
  (s : fsys) (ps : list part) (s1 : fsys) (ta : list event) :
  missing_content req = false -> api_key v cfg <> "" ->
  assemble v (req_prompt req) (req_files req) s = (ps, s1, ta) ->
  exists s2 tc, no_invoke tc = true /\
    (ps = [] -> chat v cfg gen req s = (Some resp400_no_valid, s2, (ta ++ tc)%list)) /\
    (ps <> [] -> exists tr, snd (chat v cfg gen req s) = (ta ++ tc ++ EvInvoke ps :: tr)%list).
Proof.
  intros Hm Hk Ha.
  apply String.eqb_neq in Hk.
  destruct v; simpl in *; [unfold chat_esm|unfold chat_cjs]; rewrite Hm, Hk; unbind;
    rewrite Ha; cbv beta iota.
  - destruct (esm_cleanup_spec (req_files req) s1) as (s2 & tc & Hc & _ & _ & _ & _ & Hq).
    rewrite Hc. exists s2, tc. split; [exact Hq|]. split.
    + intros ->. now rewrite app_nil_r.
    + intros Hne. destruct ps as [|p0 ps']; [congruence|]. cbv [invoke].
      destruct (gen (p0 :: ps')); cbv [log]; simpl.
      * eexists. reflexivity.
      * destruct (Esm.cleanup (req_files req) s2) as [[u s3] t3]. eexists. reflexivity.
  - exists s1, []. split; [reflexivity|]. split.
    + intros ->. rewrite !app_nil_r. reflexivity.
    + intros Hne. destruct ps as [|p0 ps']; [congruence|]. cbv [invoke].
      destruct (gen (p0 :: ps')); cbv [log]; simpl.
      * eexists. reflexivity.
      * destruct (Cjs.cleanup_on_error (req_files req) s1) as [[u s3] t3].
        eexists. reflexivity.
Qed.

Lemma classify_is_error (v : variant) (cfg : config) (e : js_error) :
  is_ok_body (match v with ESM => Some (Esm.classify cfg e) | CJS => Cjs.classify cfg e end)
  = false.
Proof.
  destruct v; simpl.
  - unfold Esm.classify.
    repeat match goal with |- context [if ?b then _ else _] => destruct b end; reflexivity.
  - unfold Cjs.classify. destruct (err_message e); [|reflexivity].
    repeat match goal with |- context [if ?b then _ else _] => destruct b end; reflexivity.
Qed.

Lemma chat_ok_response (v : variant) (cfg : config) (gen : model_fn v) (req : request)
  (s : fsys) (st : Z) (out : jsval) (n : nat) :
  fst (fst (chat v cfg gen req s)) = Some (mkResp st (BOk out n)) ->
  st = 200%Z /\ n = length (req_files req).
Proof.
  intros H.
  destruct v; simpl in H; [unfold chat_esm in H|unfold chat_cjs in H];
    destruct (missing_content req); [| destruct (String.eqb _ "")| |destruct (String.eqb _ "")];
    unbind in H; split_runs H; simpl in H;
    try (injection H as <- <-; auto); try discriminate.
  - unfold Esm.classify in H.
    repeat match type of H with context [if ?b then _ else _] => destruct b end;
      discriminate.
  - unfold Cjs.classify in H. destruct (err_message _); [|discriminate].
    repeat match type of H with context [if ?b then _ else _] => destruct b end;
      discriminate.
Qed.

(* ----------------------------------------------------------------- *)
(** *** The upload middleware *)



Lemma multer_stored_incl (lim : limits) (uploads : list file) :
  forall seen e stored, multer_array lim seen uploads = inl (e, stored) -> incl stored uploads.
Proof.
  induction uploads as [|f rest IH]; intros seen e stored H; [discriminate|].
  cbn [multer_array] in H.
  destruct (Nat.leb (files_max lim) seen); [injection H as _ <-; intros ? []|].
  destruct (negb (String.eqb (fieldname f) upload_field) || Nat.leb upload_maxCount seen);
    [injection H as _ <-; intros ? []|].
  destruct (fileFilter f); [injection H as _ <-; intros ? []|].
  destruct (Z.ltb (fileSize lim) (size f)); [injection H as _ <-; intros g [<-|[]]; now left|].
  destruct (multer_array lim (S seen) rest) as [[e' st]|fs] eqn:Hr; [|discriminate].
  injection H as _ <-. intros g [<-|Hg]; [now left|right]. exact (IH _ _ _ Hr g Hg).
Qed.



(* ================================================================= *)
(** ** C1: removal of the uploaded files *)

(** C1 (amended). In the ES-module handler, once the response is returned,
    every attachment's stored file has had a removal attempt: exactly one,
    or two when the model call failed (the catch block repeats the cleanup);
    each file is gone unless its removal failed; and removal failures never
    change the response (the same request with any set of locked files
    gets the same response). *)
Theorem chat_esm_uploads_removed (cfg : config) (gen : model_fn ESM) (req : request)
  (s : fsys) :
  NoDup (map path (req_files req)) ->
  let '(resp, s', t) := chat_esm cfg gen req s in
  (forall f, In f (req_files req) ->
     unlink_attempts (path f) t = (if invocation_failed gen t then 2 else 1) /\
     (contents s' !! path f = None \/ path f ∈ locked s)) /\
  (forall L : gset string, fst (fst (chat_esm cfg gen req (mkFs (contents s) L))) = resp).
Proof.
  intros Hnd.
  destruct (chat_esm cfg gen req s) as [[resp s'] t] eqn:E.
  split.
  - eapply chat_esm_cleanup; eauto.
  - intros L. rewrite (chat_esm_response_contents cfg gen req _ s) by reflexivity.
    now rewrite E.
Qed.

Lemma chat_esm_uploads_removed_witness :
  NoDup (map path (req_files req_hi_a)) /\
  let '(resp, s', t) := chat_esm cfg0 gen_fail req_hi_a fs_ab in
  (forall f, In f (req_files req_hi_a) ->
     unlink_attempts (path f) t = (if invocation_failed gen_fail t then 2 else 1) /\
     (contents s' !! path f = None \/ path f ∈ locked fs_ab)) /\
  (forall L : gset string,
     fst (fst (chat_esm cfg0 gen_fail req_hi_a (mkFs (contents fs_ab) L))) = resp).
Proof.
  assert (Hnd : NoDup (map path (req_files req_hi_a))).
  { apply NoDup_ListNoDup. simpl. constructor; [intros []|constructor]. }
  split; [exact Hnd|].
  exact (chat_esm_uploads_removed cfg0 gen_fail req_hi_a fs_ab Hnd).
Defined.

(** C1 refuted: "removal attempted exactly once per request" fails when
    the model call fails: the stored file of [txtA] gets two removal
    attempts. *)
Lemma chat_esm_double_removal :
  unlink_attempts "uploads/a" (snd (chat_esm cfg0 gen_fail req_hi_a fs_ab)) = 2.
Proof. vm_compute. reflexivity. Qed.

(* ================================================================= *)
(** ** C2: order of the assembled parts *)

Lemma text_type_not_image (m : string) :
  is_text_type m = true -> startsWith m "image/" = false.
Proof.
  unfold is_text_type. intros H. apply orb_true_iff in H as [H|H];
    apply String.eqb_eq in H; subst; reflexivity.
Qed.

Lemma file_parts_text (v : variant) (p : string) (f : file) (c : string) :
  p <> "" -> is_text_type (mimetype f) = true ->
  file_parts v (Some p) f (Some c) = [text_file_part f c].
Proof.
  intros Hp Ht. unfold file_parts. rewrite (text_type_not_image _ Ht), Ht.
  simpl. apply String.eqb_neq in Hp. now rewrite Hp.
Qed.

(** C2. With a non-empty prompt [p], both servers assemble [TextPart p]
    followed by each attachment's parts in upload order; in particular,
    for the prompt "hi" and two stored text attachments A then B the
    parts are exactly [TextPart "hi"], then A's and B's contents, each
    under its 'Content of file "<name>":' header. *)
Theorem assemble_prompt_then_files (v : variant) (s : fsys) :
  (forall (p : string) (files : list file), p <> "" -> NoDup (map path files) ->
     fst (fst (assemble v (Some p) files s)) =
     TextPart p :: concat (map (fun f => file_parts v (Some p) f (contents s !! path f)) files))
  /\
  (forall (A B : file) (cA cB : string),
     is_text_type (mimetype A) = true -> is_text_type (mimetype B) = true ->
     path A <> path B ->
     contents s !! path A = Some cA -> contents s !! path B = Some cB ->
     fst (fst (assemble v (Some "hi") [A; B] s)) =
     [TextPart "hi"; text_file_part A cA; text_file_part B cB]).
Proof.
  assert (Hgen : forall (p : string) (files : list file), p <> "" -> NoDup (map path files) ->
     fst (fst (assemble v (Some p) files s)) =
     TextPart p :: concat (map (fun f => file_parts v (Some p) f (contents s !! path f)) files)).
  { intros p files Hp Hnd.
    destruct (assemble_parts v (Some p) files s Hnd) as (ps & s' & t & -> & -> & _).
    simpl. apply String.eqb_neq in Hp. now rewrite Hp. }
  split; [exact Hgen|].
  intros A B cA cB HA HB Hne HcA HcB.
  rewrite Hgen; [|discriminate|].
  - simpl. rewrite HcA, HcB, !file_parts_text by (auto; discriminate). reflexivity.
  - apply NoDup_ListNoDup. simpl. constructor.
    + intros [H|[]]. congruence.
    + constructor; [intros []|constructor].
Qed.

Lemma assemble_prompt_then_files_witness :
  let s := fs_ab in
  ("hi" <> "" /\ NoDup (map path [txtA; txtB]) /\
   fst (fst (assemble CJS (Some "hi") [txtA; txtB] s)) =
   TextPart "hi" :: concat (map (fun f => file_parts CJS (Some "hi") f (contents s !! path f))
                                [txtA; txtB])) /\
  (is_text_type (mimetype txtA) = true /\ is_text_type (mimetype txtB) = true /\
   path txtA <> path txtB /\ contents s !! path txtA = Some "aaa" /\
   contents s !! path txtB = Some "bbb" /\
   fst (fst (assemble CJS (Some "hi") [txtA; txtB] s)) =
   [TextPart "hi"; text_file_part txtA "aaa"; text_file_part txtB "bbb"]).
Proof.
  simpl.
  assert (Hnd : NoDup (map path [txtA; txtB])).
  { apply NoDup_ListNoDup. simpl. constructor.
    - intros [H|[]]. discriminate.
    - constructor; [intros []|constructor]. }
  split.
  - split; [discriminate|]. split; [exact Hnd|].
    apply (proj1 (assemble_prompt_then_files CJS fs_ab)); [discriminate|exact Hnd].
  - do 5 (split; [first [reflexivity|discriminate]|]).
    apply (proj2 (assemble_prompt_then_files CJS fs_ab)); first [reflexivity|discriminate].
Defined.

(* ================================================================= *)
(** ** C3: the response normaliser *)

Lemma opt_get_field (v : jsval) (k : string) :
  k <> "length" -> opt_get v k = match field v k with Some x => x | None => JUndef end.
Proof.
  intros Hk. apply String.eqb_neq in Hk.
  destruct v; simpl; try reflexivity; rewrite Hk; reflexivity.
Qed.

Lemma opt_index0_index0 (v : jsval) :
  opt_get (opt_index0 v) "content" =
  match index0 v with Some c => opt_get c "content" | None => JUndef end.
Proof.
  destruct v as [| | | |s|xs|fs|]; try reflexivity.
  - destruct s; reflexivity.
  - destruct xs; reflexivity.
  - simpl. destruct (assoc "0" fs); reflexivity.
Qed.

Lemma join_concat (sep : string) (l : list string) : join sep l = String.concat sep l.
Proof.
  induction l as [|x [|y l] IH]; simpl in *; try rewrite IH; reflexivity.
Qed.

Lemma stringify_defined (v : jsval) :
  v <> JUndef -> (forall r, v <> JFun r) -> exists s, stringify v = Some s.
Proof.
  intros H1 H2. destruct v as [| |b| | | | |r]; try (eexists; reflexivity).
  - congruence.
  - destruct b; eexists; reflexivity.
  - exfalso. exact (H2 r eq_refl).
Qed.

(** C3. [extractText] tries, in this order: the response's [text()]
    method, when it has one; the concatenated string [text] of every
    part of [candidates[0].content.parts], when that is an array; the
    JSON serialisation of the response. Whenever the response is neither
    [undefined] nor a function and its [text()] (if any) yields a string,
    the result is a string. *)
Theorem extractText_strategies (v : jsval) :
  extractText v = normalise_in_order v /\
  (v <> JUndef -> (forall r, v <> JFun r) ->
   (forall r, text_capability v = Some r -> exists s, r = JStr s) ->
   exists s, extractText v = JStr s).
Proof.
  assert (Heq : extractText v = normalise_in_order v).
  { unfold extractText, normalise_in_order.
    assert (Hcap : truthy v && String.eqb (typeof (get v "text")) "function" =
                   match text_capability v with Some _ => true | None => false end).
    { unfold text_capability, field.
      destruct v as [| |b|n|s|xs|fs|]; simpl; try reflexivity.
      - destruct b; reflexivity.
      - destruct (n =? 0)%Z; reflexivity.
      - destruct (String.eqb s ""); reflexivity.
      - destruct (assoc "text" fs) as [[]|]; reflexivity. }
    rewrite Hcap.
    destruct (text_capability v) as [r|] eqn:Ht.
    - unfold text_capability, field in Ht.
      destruct v; try discriminate. simpl.
      destruct (assoc "text" fields) as [[]|]; try discriminate. now inversion Ht.
    - rewrite opt_index0_index0, (opt_get_field v "candidates") by discriminate.
      unfold first_candidate_parts.
      destruct (field v "candidates") as [cs|]; [|reflexivity].
      destruct (index0 cs) as [c|]; [|reflexivity].
      rewrite (opt_get_field c "content") by discriminate.
      destruct (field c "content") as [ct|]; [|reflexivity].
      rewrite (opt_get_field ct "parts") by discriminate.
      destruct (field ct "parts") as [[]|]; try reflexivity.
      rewrite join_concat. f_equal. f_equal. apply map_ext.
      intros p. unfold part_text, text_of.
      rewrite (opt_get_field _ "text") by discriminate.
      destruct (field p "text") as [[]|]; reflexivity. }
  split; [exact Heq|].
  intros H1 H2 H3. rewrite Heq. unfold normalise_in_order.
  destruct (text_capability v) as [r|] eqn:Ht.
  - apply (H3 r eq_refl).
  - destruct (first_candidate_parts v); [eexists; reflexivity|].
    destruct (stringify_defined v H1 H2) as [s ->]. eexists; reflexivity.
Qed.

Lemma extractText_strategies_witness :
  let v := JObj [("candidates", JArr [JObj [("content",
             JObj [("parts", JArr [JObj [("text", JStr "hel")]; JNull;
                                   JObj [("text", JStr "lo")]])])]])] in
  v <> JUndef /\ (forall r, v <> JFun r) /\
  (forall r, text_capability v = Some r -> exists s, r = JStr s) /\
  extractText v = normalise_in_order v /\ extractText v = JStr "hello" /\
  exists s, extractText v = JStr s.
Proof.
  intros v.
  assert (H1 : v <> JUndef) by discriminate.
  assert (H2 : forall r, v <> JFun r) by (intros r; discriminate).
  assert (H3 : forall r, text_capability v = Some r -> exists s, r = JStr s)
    by (intros r Hr; discriminate Hr).
  split; [exact H1|]. split; [exact H2|]. split; [exact H3|].
  split; [exact (proj1 (extractText_strategies v))|].
  split; [reflexivity|].
  exact (proj2 (extractText_strategies v) H1 H2 H3).
Defined.

(* ================================================================= *)
(** ** C4: failing attachments during assembly *)

Lemma file_parts_failed_read (v : variant) (prompt : option string) (f : file) :
  needs_read f = true -> file_parts v prompt f None = [].
Proof.
  unfold needs_read, file_parts. intros H.
  destruct (startsWith (mimetype f) "image/"); [reflexivity|].
  simpl in H. now rewrite H.
Qed.

Lemma cjs_process_file_unlinks (prompt : option string) (f : file) (acc : list part)
  (s : fsys) (r : try_result) (s1 : fsys) (t : list event) :
  Cjs.process_file prompt f acc s = (r, s1, t) ->
  locked s1 = locked s /\
  (forall q, unlink_attempts q t =
             if String.eqb q (path f) && negb (read_fails f s) then 1 else 0) /\
  (contents s1 !! path f = None \/ path f ∈ locked s) /\
  (forall p, contents s !! p = None -> contents s1 !! p = None).
Proof.
  unfold Cjs.process_file, read_fails, needs_read, Cjs.fileToGenerativePart,
    Cjs.readTextFile.
  destruct (startsWith (mimetype f) "image/") eqn:Himg;
  [|destruct (is_text_type (mimetype f)) eqn:Htxt;
    [|destruct (is_document_type (mimetype f)) eqn:Hdoc]];
  mrun0;
  try (destruct (contents s !! path f) eqn:Hc); simpl;
  try (destruct (fs_unlink (path f) s) as [[b s2] t1] eqn:Hu;
       destruct (fs_unlink_spec _ _ _ _ _ Hu) as (-> & Hl & Hother & Hgone);
       simpl);
  try (destruct b); intros [= <- <- <-];
  (split; [assumption || reflexivity|]);
  (split; [intros q; unfold unlink_attempts; simpl;
           destruct (String.eqb_spec q (path f)) as [->|Hne];
           [ rewrite ?String.eqb_refl; reflexivity
           | rewrite ?(proj2 (String.eqb_neq _ _) (not_eq_sym Hne)); reflexivity ]|]);
  (split; [first [exact Hgone | left; exact Hc]|]);
  intros p Hp; try exact Hp;
  destruct (string_dec p (path f)) as [->|Hne];
  first [ destruct Hgone as [Hn|Hlk]; [exact Hn|];
          unfold fs_unlink in Hu; rewrite (bool_decide_eq_true_2 _ Hlk) in Hu;
          inversion Hu; subst; exact Hp
        | rewrite Hother by exact Hne; exact Hp ].
Qed.

Lemma cjs_process_file_segment (prompt : option string) (f : file) (acc : list part)
  (s : fsys) (r : try_result) (s1 : fsys) (t1 : list event) :
  Cjs.process_file prompt f acc s = (r, s1, t1) ->
  exists t2, (match r with
              | inl ps => mret ps
              | inr ps => log_file_error (originalname f) ;; mret ps
              end : M (list part)) s1 = (try_parts r, s1, t2) /\
             cjs_segment f s (t1 ++ t2)%list.
Proof.
  unfold Cjs.process_file, cjs_segment, read_fails, needs_read, unlink_ok,
    Cjs.fileToGenerativePart, Cjs.readTextFile.
  destruct (startsWith (mimetype f) "image/") eqn:Himg;
  [|destruct (is_text_type (mimetype f)) eqn:Htxt;
    [|destruct (is_document_type (mimetype f)) eqn:Hdoc]];
  mrun; destruct (contents s !! path f) eqn:Hc; simpl;
  try case_bool_decide; simpl; rewrite ?Hc; simpl; intros [= <- <- <-]; mrun;
  eexists; (split; [reflexivity|]); try reflexivity; eexists; reflexivity.
Qed.

Lemma cjs_segment_agree (f : file) (s s1 : fsys) (seg : list event) :
  locked s1 = locked s -> contents s1 !! path f = contents s !! path f ->
  cjs_segment f s1 seg -> cjs_segment f s seg.
Proof.
  unfold cjs_segment, read_fails, unlink_ok. intros Hl Hc. now rewrite Hl, Hc.
Qed.

Lemma Forall2_impl_in {A B : Type} (P Q : A -> B -> Prop) (l : list A) (k : list B) :
  (forall x y, In x l -> P x y -> Q x y) -> Forall2 P l k -> Forall2 Q l k.
Proof.
  intros H HP. induction HP as [|x y l k Hxy _ IH]; constructor.
  - apply H; [now left|exact Hxy].
  - apply IH. intros x' y' Hx'. apply H. now right.
Qed.

Lemma cjs_loop_segments (prompt : option string) (files : list file) :
  forall acc s ps s' t,
  NoDup (map path files) ->
  Cjs.assemble_loop prompt files acc s = (ps, s', t) ->
  exists segs, t = concat segs /\ Forall2 (fun f seg => cjs_segment f s seg) files segs.
Proof.
  induction files as [|f rest IH]; intros acc s ps s' t Hnd H.
  - simpl in H. injection H as <- <- <-. exists []. split; [reflexivity|constructor].
  - simpl in Hnd. apply NoDup_ListNoDup in Hnd. inversion Hnd as [|x l Hnotin Hnd']; subst.
    apply NoDup_ListNoDup in Hnd'.
    cbn [Cjs.assemble_loop] in H. unfold mbind at 1, M_bind at 1 in H.
    destruct (Cjs.process_file prompt f acc s) as [[r s1] t1] eqn:Hpf.
    destruct (cjs_process_file prompt f acc s) as (r' & s1' & t1' & Hpf' & _ & _ & Hother & _).
    rewrite Hpf in Hpf'. injection Hpf' as <- <- <-.
    destruct (cjs_process_file_unlinks _ _ _ _ _ _ _ Hpf) as (Hl1 & _).
    destruct (cjs_process_file_segment _ _ _ _ _ _ _ Hpf) as (t2 & Hs2 & Hseg).
    unfold mbind at 1, M_bind at 1 in H. rewrite Hs2 in H.
    destruct (Cjs.assemble_loop prompt rest (try_parts r) s1) as [[ps3 s3] t3] eqn:Hl.
    injection H as <- <- <-.
    destruct (IH _ _ _ _ _ Hnd' Hl) as (segs & -> & Hall).
    exists ((t1 ++ t2)%list :: segs). split; [simpl; now rewrite app_assoc|].
    constructor; [exact Hseg|].
    eapply Forall2_impl_in; [|exact Hall]. intros g seg Hin Hg.
    apply (cjs_segment_agree g s s1 seg Hl1); [|exact Hg].
    apply Hother. intros Heq. apply Hnotin. rewrite <- Heq. now apply in_map.
Qed.

Lemma Forall2_In_l {A B : Type} (P : A -> B -> Prop) (l : list A) (k : list B) (x : A) :
  Forall2 P l k -> In x l -> exists y, In y k /\ P x y.
Proof.
  intros HP. induction HP as [|a b l k Hab _ IH]; [intros []|].
  intros [<-|Hx]; [exists b; split; [now left|exact Hab]|].
  destruct (IH Hx) as (y & Hy & Hp). exists y. split; [now right|exact Hp].
Qed.

Lemma cjs_loop_logs_failed_removal (prompt : option string) (files : list file)
  (acc : list part) (s : fsys) (ps : list part) (s' : fsys) (t : list event) :
  NoDup (map path files) ->
  Cjs.assemble_loop prompt files acc s = (ps, s', t) ->
  forall f, In f files -> path f ∈ locked s \/ contents s !! path f = None ->
  In (EvLogFileError (originalname f)) t.
Proof.
  intros Hnd H f Hf Hfail.
  destruct (cjs_loop_segments _ _ _ _ _ _ _ Hnd H) as (segs & -> & Hall).
  destruct (Forall2_In_l _ _ _ _ Hall Hf) as (seg & Hseg & Hs).
  apply in_concat. exists seg. split; [exact Hseg|].
  unfold cjs_segment in Hs. destruct (read_fails f s).
  - destruct Hs as (m & ->). right; right; now left.
  - assert (Hok : unlink_ok (path f) s = false).
    { unfold unlink_ok. destruct Hfail as [Hl|Hn].
      - now rewrite (bool_decide_eq_true_2 _ Hl).
      - rewrite Hn. now destruct (bool_decide _). }
    rewrite Hok in Hs. rewrite Hs. apply in_app_iff. right. right. now left.
Qed.

(** C4 (amended). With distinct upload paths, assembly never fails and
    never calls the model: the parts are the prompt part followed, in
    upload order, by each attachment's contribution, which depends only
    on what is stored at that attachment's own path; an attachment
    whose read fails contributes no part and its failure is logged. In
    server.js, an attachment whose removal fails (its path is locked or
    holds no file) is also logged as a processing error of that
    attachment, while the parts it added stay in the sequence, as the
    equation for [ps] shows. *)
Theorem assemble_isolates_failures (v : variant) (prompt : option string)
  (files : list file) (s : fsys) :
  NoDup (map path files) ->
  exists ps s' t, assemble v prompt files s = (ps, s', t) /\
    ps = (Esm.prompt_parts prompt ++
          concat (map (fun f => file_parts v prompt f (contents s !! path f)) files))%list /\
    (forall f, In f files -> needs_read f = true -> contents s !! path f = None ->
       file_parts v prompt f (contents s !! path f) = [] /\
       In (EvLogFileError (originalname f)) t) /\
    (v = CJS -> forall f, In f files ->
       path f ∈ locked s \/ contents s !! path f = None ->
       In (EvLogFileError (originalname f)) t) /\
    no_invoke t = true.
Proof.
  intros Hnd.
  destruct (assemble_parts v prompt files s Hnd) as (ps & s' & t & Hrun & Hps & Hlog & Hq).
  exists ps, s', t. split; [exact Hrun|]. split; [exact Hps|]. split; [|split; [|exact Hq]].
  - intros f Hin Hr Hnone. rewrite Hnone. split.
    + now apply file_parts_failed_read.
    + now apply Hlog.
  - intros -> f Hin Hfail. simpl in Hrun. unfold Cjs.assemble in Hrun.
    exact (cjs_loop_logs_failed_removal _ _ _ _ _ _ _ Hnd Hrun f Hin Hfail).
Qed.

Lemma assemble_isolates_failures_witness :
  NoDup (map path [txtA; txtB]) /\
  exists ps s' t, assemble ESM (Some "hi") [txtA; txtB] fs_a_only = (ps, s', t) /\
    ps = [TextPart "hi"; text_file_part txtA "aaa"] /\
    In (EvLogFileError "B") t /\ no_invoke t = true /\
  exists ps' s'' t', assemble CJS (Some "hi") [txtA; txtB] fs_a_locked = (ps', s'', t') /\
    In (text_file_part txtA "aaa") ps' /\ In (EvLogFileError "A") t'.
Proof.
  assert (Hnd : NoDup (map path [txtA; txtB])).
  { apply NoDup_ListNoDup. simpl. constructor.
    - intros [H|[]]. discriminate.
    - constructor; [intros []|constructor]. }
  split; [exact Hnd|].
  destruct (assemble_isolates_failures ESM (Some "hi") [txtA; txtB] fs_a_only Hnd)
    as (ps & s' & t & Hrun & Hps & Hlog & _ & Hq).
  exists ps, s', t. split; [exact Hrun|]. split; [exact Hps|].
  split; [apply (proj2 (Hlog txtB (or_intror (or_introl eq_refl)) eq_refl eq_refl))|].
  split; [exact Hq|].
  destruct (assemble_isolates_failures CJS (Some "hi") [txtA; txtB] fs_a_locked Hnd)
    as (ps' & s'' & t' & Hrun' & Hps' & _ & Hcjs & _).
  exists ps', s'', t'. split; [exact Hrun'|]. split.
  - rewrite Hps'. vm_compute. right. left. reflexivity.
  - apply (Hcjs eq_refl txtA (or_introl eq_refl)). left.
    vm_compute. reflexivity.
Defined.

(** C4 counterexample: in server.js, removing A's upload after its part
    was added fails; the failure is logged as a processing error of A,
    yet A's part stays in the assembled sequence. *)
Lemma cjs_failed_processing_keeps_part :
  let '(ps, _, t) := assemble CJS (Some "hi") [txtA] fs_a_locked in
  In (EvLogFileError "A") t /\ ps = [TextPart "hi"; text_file_part txtA "aaa"].
Proof. vm_compute. split; [repeat (first [left; reflexivity | right]) | reflexivity]. Qed.

(* ================================================================= *)
(** ** C5: the error classifier *)





(* ================================================================= *)
(** ** C6: no prompt and no attachment *)

(** C6. A request with an empty or absent prompt and no attachment is
    answered 400 "missing content" by both servers, with an empty trace:
    nothing read, nothing removed, no model call, state unchanged. *)
Theorem serve_missing_content (v : variant) (cfg : config) (gen : model_fn v)
  (prompt : option string) (s : fsys) :
  prompt_truthy prompt = false ->
  serve v cfg gen prompt [] s = (Some resp400_missing, s, []) /\
  missing_content (mkReq prompt []) = true.
Proof.
  intros Hp. unfold missing_content. simpl. rewrite Hp. split; [|reflexivity].
  unfold serve. simpl. destruct v; simpl; unfold chat_esm, chat_cjs, missing_content;
    simpl; rewrite Hp; simpl; unbind; reflexivity.
Qed.

Lemma serve_missing_content_witness :
  prompt_truthy (Some "") = false /\
  serve CJS cfg0 (fun _ => inl "unused") (Some "") [] fs_ab = (Some resp400_missing, fs_ab, []).
Proof.
  split; [reflexivity|].
  exact (proj1 (serve_missing_content CJS cfg0 (fun _ => inl "unused") (Some "") fs_ab
                  eq_refl)).
Defined.

(* ================================================================= *)
(** ** C7: nothing left after assembly *)

(** C7. A request that passes the missing-content check (with the API
    key configured) and whose assembly yields no part is answered with
    the "no valid content" 400, which differs from the missing-content
    400; the trace starts with the whole assembly and has no model
    call. *)
Theorem chat_no_valid_content (v : variant) (cfg : config) (gen : model_fn v)
  (req : request) (s s1 : fsys) (ta : list event) :
  missing_content req = false -> api_key v cfg <> "" ->
  NoDup (map path (req_files req)) ->
  assemble v (req_prompt req) (req_files req) s = ([], s1, ta) ->
  exists s2 tc, chat v cfg gen req s = (Some resp400_no_valid, s2, (ta ++ tc)%list) /\
    no_invoke (ta ++ tc) = true /\ resp400_no_valid <> resp400_missing.
Proof.
  intros Hm Hk Hnd Ha.
  destruct (chat_after_checks v cfg gen req s [] s1 ta Hm Hk Ha) as (s2 & tc & Htc & Hnil & _).
  destruct (assemble_parts v (req_prompt req) (req_files req) s Hnd)
    as (ps & s' & t & Hrun & _ & _ & Ht).
  rewrite Ha in Hrun. injection Hrun as <- <- <-.
  exists s2, tc. split; [now apply Hnil|]. split; [|discriminate].
  rewrite no_invoke_app. now rewrite Ht, Htc.
Qed.

Lemma chat_no_valid_content_witness :
  let req := mkReq None [txtB] in
  missing_content req = false /\ api_key ESM cfg0 <> "" /\ NoDup (map path (req_files req)) /\
  assemble ESM (req_prompt req) (req_files req) fs_a_only =
    ([], fs_a_only, [EvRead "uploads/b"; EvLogFileError "B"]) /\
  exists s2 tc,
    chat ESM cfg0 gen_hello req fs_a_only =
      (Some resp400_no_valid, s2, ([EvRead "uploads/b"; EvLogFileError "B"] ++ tc)%list) /\
    no_invoke ([EvRead "uploads/b"; EvLogFileError "B"] ++ tc) = true /\
    resp400_no_valid <> resp400_missing.
Proof.
  intros req.
  assert (H1 : missing_content req = false) by reflexivity.
  assert (H2 : api_key ESM cfg0 <> "") by discriminate.
  assert (H3 : NoDup (map path (req_files req))).
  { apply NoDup_ListNoDup. simpl. constructor; [intros []|constructor]. }
  assert (H4 : assemble ESM (req_prompt req) (req_files req) fs_a_only =
               ([], fs_a_only, [EvRead "uploads/b"; EvLogFileError "B"])) by reflexivity.
  split; [exact H1|]. split; [exact H2|]. split; [exact H3|]. split; [exact H4|].
  exact (chat_no_valid_content ESM cfg0 gen_hello req fs_a_only fs_a_only _ H1 H2 H3 H4).
Defined.

(* ================================================================= *)
(** ** C8: upload limits *)




(* ================================================================= *)
(** ** C9: [filesProcessed] *)

(** C9. Whenever either server answers with a success body, its status
    is 200 and [filesProcessed] is the number of attachments the request
    carried, whether or not their reads succeeded. *)
Theorem chat_files_processed (v : variant) (cfg : config) (gen : model_fn v)
  (req : request) (s : fsys) (st : Z) (out : jsval) (n : nat) :
  fst (fst (chat v cfg gen req s)) = Some (mkResp st (BOk out n)) ->
  st = 200%Z /\ n = length (req_files req).
Proof.
  intros H. exact (chat_ok_response v cfg gen req s st out n H).
Qed.

Lemma chat_files_processed_witness :
  let req := mkReq (Some "hi") [txtA; txtB] in
  fst (fst (assemble ESM (req_prompt req) (req_files req) fs_a_only)) =
    [TextPart "hi"; text_file_part txtA "aaa"] /\
  fst (fst (chat ESM cfg0 gen_hello req fs_a_only)) =
    Some (mkResp 200 (BOk (JStr "hello") 2)) /\
  200%Z = 200%Z /\ 2 = length (req_files req).
Proof.
  intros req.
  assert (H : fst (fst (chat ESM cfg0 gen_hello req fs_a_only)) =
              Some (mkResp 200 (BOk (JStr "hello") 2))) by reflexivity.
  split; [reflexivity|]. split; [exact H|].
  exact (chat_files_processed ESM cfg0 gen_hello req fs_a_only _ _ _ H).
Defined.

(* ================================================================= *)
(** ** C10: the declared type image/jpg *)



(* ================================================================= *)
(** * Further properties of the servers *)

(* ----------------------------------------------------------------- *)
(** ** Requests leave other files alone *)

Lemma keeps_ret {A : Type} (P : string -> Prop) (a : A) : keeps_outside P (mret a).
Proof. intros s. simpl. auto. Qed.

Lemma keeps_bind {A B : Type} (P : string -> Prop) (m : M A) (k : A -> M B) :
  keeps_outside P m -> (forall a, keeps_outside P (k a)) -> keeps_outside P (m ≫= k).
Proof.
  intros Hm Hk s. specialize (Hm s). unfold mbind, M_bind.
  destruct (m s) as [[a s1] t1]. simpl in Hm. specialize (Hk a s1).
  destruct (k a s1) as [[b s2] t2]. simpl in *.
  destruct Hm as [Hl1 Hc1], Hk as [Hl2 Hc2]. split; [congruence|].
  intros q Hq. rewrite Hc2, Hc1; auto.
Qed.

Lemma keeps_read (P : string -> Prop) (p : string) : keeps_outside P (fs_read p).
Proof. intros s. simpl. auto. Qed.

Lemma keeps_log (P : string -> Prop) (m : string) : keeps_outside P (log m).
Proof. intros s. simpl. auto. Qed.

Lemma keeps_log_file_error (P : string -> Prop) (m : string) :
  keeps_outside P (log_file_error m).
Proof. intros s. simpl. auto. Qed.

Lemma keeps_invoke {R : Type} (P : string -> Prop) (gen : list part -> R) (ps : list part) :
  keeps_outside P (invoke gen ps).
Proof. intros s. simpl. auto. Qed.

Lemma keeps_unlink (P : string -> Prop) (p : string) : P p -> keeps_outside P (fs_unlink p).
Proof.
  intros Hp s. destruct (fs_unlink p s) as [[b s1] t] eqn:E. simpl.
  destruct (fs_unlink_spec _ _ _ _ _ E) as (_ & Hl & Hc & _). split; [exact Hl|].
  intros q Hq. apply Hc. intros ->. exact (Hq Hp).
Qed.

Lemma keeps_mapM {A : Type} (P : string -> Prop) (f : A -> M unit) (l : list A) :
  (forall x, In x l -> keeps_outside P (f x)) -> keeps_outside P (mapM_ f l).
Proof.
  induction l as [|x l IH]; intros H; simpl.
  - apply keeps_ret.
  - apply keeps_bind; [apply H; now left|]. intros _. apply IH. intros y Hy. apply H. now right.
Qed.

Ltac keeps_step :=
  first
    [ apply keeps_ret | apply keeps_read | apply keeps_log | apply keeps_log_file_error
    | apply keeps_invoke
    | apply keeps_bind; [|intros ?]
    | match goal with
      | |- keeps_outside _ (if ?b then _ else _) => destruct b
      | |- keeps_outside _ (match ?x with _ => _ end) => destruct x
      end ].

Lemma esm_process_file_keeps (P : string -> Prop) (prompt : option string) (f : file)
  (acc : list part) : keeps_outside P (Esm.process_file prompt f acc).
Proof.
  unfold Esm.process_file, Esm.fileToGenerativePart, Esm.readTextFile.
  repeat keeps_step.
Qed.

Lemma cjs_process_file_keeps (P : string -> Prop) (prompt : option string) (f : file)
  (acc : list part) : P (path f) -> keeps_outside P (Cjs.process_file prompt f acc).
Proof.
  intros Hp. unfold Cjs.process_file, Cjs.fileToGenerativePart, Cjs.readTextFile.
  cbv zeta. repeat (first [apply keeps_unlink; exact Hp | keeps_step]).
Qed.

Lemma esm_loop_keeps (P : string -> Prop) (prompt : option string) (fs : list file) :
  forall acc, keeps_outside P (Esm.assemble_loop prompt fs acc).
Proof.
  induction fs as [|f fs IH]; intros acc; simpl; [apply keeps_ret|].
  apply keeps_bind; [apply esm_process_file_keeps|]. intros r.
  apply keeps_bind; [destruct r; repeat keeps_step|]. intros ps. apply IH.
Qed.

Lemma cjs_loop_keeps (P : string -> Prop) (prompt : option string) (fs : list file) :
  (forall f, In f fs -> P (path f)) ->
  forall acc, keeps_outside P (Cjs.assemble_loop prompt fs acc).
Proof.
  induction fs as [|f fs IH]; intros Hfs acc; simpl; [apply keeps_ret|].
  apply keeps_bind; [apply cjs_process_file_keeps; apply Hfs; now left|]. intros r.
  apply keeps_bind; [destruct r; repeat keeps_step|]. intros ps.
  apply IH. intros g Hg. apply Hfs. now right.
Qed.

Lemma assemble_keeps (v : variant) (prompt : option string) (files : list file) :
  keeps_outside (fun q => In q (map path files)) (assemble v prompt files).
Proof.
  destruct v; simpl; [unfold Esm.assemble|unfold Cjs.assemble].
  - apply esm_loop_keeps.
  - apply cjs_loop_keeps. intros f Hf. now apply in_map.
Qed.

Lemma esm_cleanup_keeps (files : list file) :
  keeps_outside (fun q => In q (map path files)) (Esm.cleanup files).
Proof.
  apply keeps_mapM. intros f Hf. apply keeps_bind; [|intros; apply keeps_ret].
  apply keeps_unlink. now apply in_map.
Qed.

Lemma cjs_cleanup_keeps (files : list file) :
  keeps_outside (fun q => In q (map path files)) (Cjs.cleanup_on_error files).
Proof.
  apply keeps_mapM. intros f Hf. apply keeps_bind.
  - apply keeps_unlink. now apply in_map.
  - intros []; [apply keeps_ret|apply keeps_log].
Qed.

Lemma multer_array_all (lim : limits) (uploads : list file) :
  forall seen files, multer_array lim seen uploads = inr files -> files = uploads.
Proof.
  induction uploads as [|f rest IH]; intros seen files H; simpl in H.
  - now injection H as <-.
  - destruct (Nat.leb _ _); [discriminate|].
    destruct (negb _ || _); [discriminate|].
    destruct (fileFilter f); [discriminate|].
    destruct (Z.ltb _ _); [discriminate|].
    destruct (multer_array lim (S seen) rest) as [[e st]|fs] eqn:E; [discriminate|].
    injection H as <-. f_equal. eapply IH. exact E.
Qed.

(** A POST /chat request, in either server and whatever its outcome,
    never removes or changes a stored file other than its own uploads,
    and never changes which files are locked. *)
Theorem serve_keeps_other_files (v : variant) (cfg : config) (gen : model_fn v)
  (prompt : option string) (uploads : list file) (s : fsys) :
  let '(_, s', _) := serve v cfg gen prompt uploads s in
  locked s' = locked s /\
  forall q, ~ In q (map path uploads) -> contents s' !! q = contents s !! q.
Proof.
  assert (H : keeps_outside (fun q => In q (map path uploads)) (serve v cfg gen prompt uploads)).
  { unfold serve. destruct (multer_array upload_limits 0 uploads) as [[e stored]|files] eqn:Hm.
    - apply keeps_bind.
      + apply keeps_mapM. intros f Hf. apply keeps_bind; [|intros _; apply keeps_ret].
        apply keeps_unlink. apply in_map. exact (multer_stored_incl _ _ _ _ _ Hm f Hf).
      + intros _. destruct e; simpl; repeat keeps_step.
    - apply multer_array_all in Hm. subst files.
      destruct v; simpl; [unfold chat_esm|unfold chat_cjs]; cbv zeta; simpl;
        repeat (first [ apply esm_cleanup_keeps | apply cjs_cleanup_keeps
                      | apply esm_loop_keeps
                      | apply cjs_loop_keeps; intros f Hf; now apply in_map
                      | keeps_step ]). }
  destruct (H s) as [Hl Hc]. destruct (serve v cfg gen prompt uploads s) as [[r s'] t].
  simpl in *. auto.
Qed.

(* ----------------------------------------------------------------- *)
(** ** Exactly which uploads reach the route handler *)

Lemma fileFilter_None_iff (f : file) : fileFilter f = None <-> In (mimetype f) allowed.
Proof.
  unfold fileFilter. destruct (existsb (String.eqb (mimetype f)) allowed) eqn:E.
  - split; [intros _|reflexivity]. apply existsb_exists in E as (m & Hm & Heq).
    apply String.eqb_eq in Heq. now subst.
  - split; [discriminate|]. intros Hin.
    assert (Ht : existsb (String.eqb (mimetype f)) allowed = true).
    { apply existsb_exists. exists (mimetype f). split; [exact Hin|apply String.eqb_refl]. }
    congruence.
Qed.



(* ----------------------------------------------------------------- *)
(** ** No accepted upload is silently dropped *)

Lemma file_parts_allowed (v : variant) (prompt : option string) (f : file)
  (stored : option string) :
  In (mimetype f) allowed ->
  (file_parts v prompt f stored = [] <-> needs_read f = true /\ stored = None).
Proof.
  unfold file_parts, needs_read. intros Hin.
  simpl in Hin.
  repeat (destruct Hin as [Hm|Hin]; [rewrite <- Hm; clear Hm; destruct stored; simpl;
    split; intros H;
    (discriminate H || intuition discriminate || auto)|]).
  contradiction.
Qed.

Lemma app_eq_self_l {A : Type} (l x : list A) : (l ++ x)%list = l <-> x = [].
Proof.
  split; [|intros ->; apply app_nil_r].
  intros H. apply (f_equal (@length A)) in H. rewrite length_app in H.
  destruct x; [reflexivity|simpl in H; lia].
Qed.

(** With distinct upload paths, the model input is the prompt part
    followed by each upload's contribution, in upload order. An upload
    accepted by the filter contributes no part exactly when it is an
    image or a text file whose read fails; a readable image or text
    file, and any PDF or Word document, always adds at least one part. *)
Theorem accepted_upload_contributes (v : variant) (prompt : option string)
  (files : list file) (s : fsys) :
  NoDup (map path files) ->
  exists ps s' t, assemble v prompt files s = (ps, s', t) /\
    ps = (Esm.prompt_parts prompt ++
          concat (map (fun f => file_parts v prompt f (contents s !! path f)) files))%list /\
    forall f, In f files -> fileFilter f = None ->
      (file_parts v prompt f (contents s !! path f) = [] <->
       needs_read f = true /\ contents s !! path f = None).
Proof.
  intros Hnd.
  destruct (assemble_parts v prompt files s Hnd) as (ps & s' & t & Hrun & Hps & _).
  exists ps, s', t. split; [exact Hrun|]. split; [exact Hps|].
  intros f _ Hf. apply fileFilter_None_iff in Hf. now apply file_parts_allowed.
Qed.

Lemma accepted_upload_contributes_witness :
  NoDup (map path [txtA; txtB]) /\
  exists ps s' t, assemble CJS None [txtA; txtB] fs_a_only = (ps, s', t) /\
    ps <> Esm.prompt_parts None /\
    file_parts CJS None txtB (contents fs_a_only !! path txtB) = [] /\
    file_parts CJS None txtA (contents fs_a_only !! path txtA) <> [].
Proof.
  assert (Hnd : NoDup (map path [txtA; txtB])).
  { apply NoDup_ListNoDup. simpl. constructor.
    - intros [H|[]]. discriminate.
    - constructor; [intros []|constructor]. }
  split; [exact Hnd|].
  destruct (accepted_upload_contributes CJS None [txtA; txtB] fs_a_only Hnd)
    as (ps & s' & t & Hrun & Hps & Hc).
  exists ps, s', t. split; [exact Hrun|].
  split; [rewrite Hps; vm_compute; discriminate|].
  split.
  - apply (Hc txtB (or_intror (or_introl eq_refl)) eq_refl). split; reflexivity.
  - intros H. apply (Hc txtA (or_introl eq_refl) eq_refl) in H as [_ Habs].
    discriminate Habs.
Defined.

(* ----------------------------------------------------------------- *)
(** ** Removals in server.js *)





(* ----------------------------------------------------------------- *)
(** ** What assembly reads *)

Lemma esm_process_file_reads (prompt : option string) (f : file) (acc : list part)
  (s : fsys) (r : try_result) (s1 : fsys) (t : list event) :
  Esm.process_file prompt f acc s = (r, s1, t) ->
  s1 = s /\ forall q, In (EvRead q) t <-> needs_read f = true /\ q = path f.
Proof.
  unfold Esm.process_file, needs_read, Esm.fileToGenerativePart, Esm.readTextFile.
  destruct (startsWith (mimetype f) "image/") eqn:Himg;
  [|destruct (is_text_type (mimetype f)) eqn:Htxt;
    [|destruct (is_document_type (mimetype f)) eqn:Hdoc]];
  mrun0; try (destruct (contents s !! path f)); simpl;
  intros [= <- <- <-]; (split; [reflexivity|]); intros q; simpl;
  intuition (try congruence; try discriminate).
Qed.

Lemma cjs_process_file_reads (prompt : option string) (f : file) (acc : list part)
  (s : fsys) (r : try_result) (s1 : fsys) (t : list event) :
  Cjs.process_file prompt f acc s = (r, s1, t) ->
  forall q, In (EvRead q) t <-> needs_read f = true /\ q = path f.
Proof.
  unfold Cjs.process_file, needs_read, Cjs.fileToGenerativePart, Cjs.readTextFile.
  destruct (startsWith (mimetype f) "image/") eqn:Himg;
  [|destruct (is_text_type (mimetype f)) eqn:Htxt;
    [|destruct (is_document_type (mimetype f)) eqn:Hdoc]];
  mrun0; try (destruct (contents s !! path f)); simpl;
  try (destruct (fs_unlink (path f) s) as [[b s2] t1] eqn:Hu;
       destruct (fs_unlink_spec _ _ _ _ _ Hu) as (-> & _); simpl);
  try destruct b; intros [= <- <- <-]; intros q; simpl;
  intuition (try congruence; try discriminate).
Qed.

Lemma step_no_read (f : file) (r : try_result) (s1 : fsys) :
  exists t2, (match r with
              | inl ps => mret ps
              | inr ps => log_file_error (originalname f) ;; mret ps
              end : M (list part)) s1 = (try_parts r, s1, t2) /\
             forall q, ~ In (EvRead q) t2.
Proof. destruct r; mrun0; eexists; (split; [reflexivity|]); intros q; simpl; intuition discriminate. Qed.

Lemma esm_loop_reads (prompt : option string) (files : list file) :
  forall acc s ps s' t, Esm.assemble_loop prompt files acc s = (ps, s', t) ->
  forall q, In (EvRead q) t <-> exists f, In f files /\ needs_read f = true /\ q = path f.
Proof.
  induction files as [|f rest IH]; intros acc s ps s' t H q.
  - simpl in H. injection H as <- <- <-. simpl. split; [intros []|intros (f & [] & _)].
  - cbn [Esm.assemble_loop] in H. unfold mbind at 1, M_bind at 1 in H.
    destruct (Esm.process_file prompt f acc s) as [[r s1] t1] eqn:Hpf.
    destruct (step_no_read f r s1) as (t2 & Hs2 & Hn2).
    unfold mbind at 1, M_bind at 1 in H. rewrite Hs2 in H.
    destruct (Esm.assemble_loop prompt rest (try_parts r) s1) as [[ps3 s3] t3] eqn:Hl.
    injection H as <- <- <-.
    pose proof (proj2 (esm_process_file_reads _ _ _ _ _ _ _ Hpf)) as H1'.
    specialize (IH _ _ _ _ _ Hl q).
    rewrite !in_app_iff, H1', IH. split.
    + intros [[Hn ->]|[Habs|(g & Hg & Hn & ->)]].
      * exists f. simpl. auto.
      * exfalso. exact (Hn2 q Habs).
      * exists g. simpl. auto.
    + intros (g & [<-|Hg] & Hn & ->); [left; auto|right; right; eauto].
Qed.

Lemma cjs_loop_reads (prompt : option string) (files : list file) :
  forall acc s ps s' t, Cjs.assemble_loop prompt files acc s = (ps, s', t) ->
  forall q, In (EvRead q) t <-> exists f, In f files /\ needs_read f = true /\ q = path f.
Proof.
  induction files as [|f rest IH]; intros acc s ps s' t H q.
  - simpl in H. injection H as <- <- <-. simpl. split; [intros []|intros (f & [] & _)].
  - cbn [Cjs.assemble_loop] in H. unfold mbind at 1, M_bind at 1 in H.
    destruct (Cjs.process_file prompt f acc s) as [[r s1] t1] eqn:Hpf.
    destruct (step_no_read f r s1) as (t2 & Hs2 & Hn2).
    unfold mbind at 1, M_bind at 1 in H. rewrite Hs2 in H.
    destruct (Cjs.assemble_loop prompt rest (try_parts r) s1) as [[ps3 s3] t3] eqn:Hl.
    injection H as <- <- <-.
    pose proof (cjs_process_file_reads _ _ _ _ _ _ _ Hpf) as H1'.
    specialize (IH _ _ _ _ _ Hl q).
    rewrite !in_app_iff, H1', IH. split.
    + intros [[Hn ->]|[Habs|(g & Hg & Hn & ->)]].
      * exists f. simpl. auto.
      * exfalso. exact (Hn2 q Habs).
      * exists g. simpl. auto.
    + intros (g & [<-|Hg] & Hn & ->); [left; auto|right; right; eauto].
Qed.

(** Assembly, in either server, reads exactly the stored files of the
    image and text uploads, and reads no other path; in particular the
    stored file of a PDF or Word upload, when no other upload shares its
    path, is never read. With distinct paths the model input is the
    prompt part followed by each upload's contribution, and the
    contribution of a PDF or Word upload, whatever is stored for it, is
    a single text part: a note naming it. *)
Theorem assemble_reads (v : variant) (prompt : option string) (files : list file)
  (s : fsys) :
  let '(ps, _, t) := assemble v prompt files s in
  (forall q, In (EvRead q) t <-> exists f, In f files /\ needs_read f = true /\ q = path f) /\
  (forall f, In f files -> needs_read f = false ->
     (forall g, In g files -> path g = path f -> g = f) -> ~ In (EvRead (path f)) t) /\
  (NoDup (map path files) ->
     ps = (Esm.prompt_parts prompt ++
           concat (map (fun f => file_parts v prompt f (contents s !! path f)) files))%list) /\
  (forall f stored, In (mimetype f) ["application/pdf"; "application/msword"; docx_type] ->
     exists a b, file_parts v prompt f stored = [TextPart (a ++ dq ++ originalname f ++ dq ++ b)]).
Proof.
  destruct (assemble v prompt files s) as [[ps s'] t] eqn:Ha.
  assert (Hr : forall q, In (EvRead q) t <->
                         exists f, In f files /\ needs_read f = true /\ q = path f).
  { destruct v; simpl in Ha; [unfold Esm.assemble in Ha|unfold Cjs.assemble in Ha].
    - exact (esm_loop_reads _ _ _ _ _ _ _ Ha).
    - exact (cjs_loop_reads _ _ _ _ _ _ _ Ha). }
  split; [exact Hr|]. split; [|split].
  - intros f Hf Hn Huniq Hin. apply Hr in Hin as (g & Hg & Hng & Heq).
    rewrite (Huniq g Hg (eq_sym Heq)) in Hng. congruence.
  - intros Hnd. destruct (assemble_parts v prompt files s Hnd) as (ps' & s'' & t' & Ha' & Hps & _).
    rewrite Ha in Ha'. injection Ha' as -> _ _. exact Hps.
  - intros f stored Hm. unfold file_parts, Esm.document_part, Cjs.document_part.
    destruct Hm as [Hm|[Hm|[Hm|[]]]]; rewrite <- Hm; simpl; destruct v;
      first [ exists "I received a PDF document named "; eexists; reflexivity
            | exists "I received a Word document named "; eexists; reflexivity ].
Qed.

Lemma assemble_reads_witness :
  In pdfP [txtA; pdfP] /\ needs_read pdfP = false /\
  (forall g, In g [txtA; pdfP] -> path g = path pdfP -> g = pdfP) /\
  let '(_, _, t) := assemble ESM None [txtA; pdfP] (mkFs (<["uploads/p" := "%PDF"]> (contents fs_ab)) ∅) in
  ~ In (EvRead (path pdfP)) t /\ In (EvRead (path txtA)) t.
Proof.
  assert (H1 : In pdfP [txtA; pdfP]) by (right; left; reflexivity).
  assert (H2 : needs_read pdfP = false) by reflexivity.
  assert (H3 : forall g, In g [txtA; pdfP] -> path g = path pdfP -> g = pdfP).
  { intros g [<-|[<-|[]]] Hp; [discriminate Hp|reflexivity]. }
  split; [exact H1|]. split; [exact H2|]. split; [exact H3|].
  pose proof (assemble_reads ESM None [txtA; pdfP]
                (mkFs (<["uploads/p" := "%PDF"]> (contents fs_ab)) ∅)) as H.
  destruct (assemble ESM None [txtA; pdfP] (mkFs (<["uploads/p" := "%PDF"]> (contents fs_ab)) ∅))
    as [[ps s'] t].
  destruct H as (Hr & Hn & _). split; [exact (Hn pdfP H1 H2 H3)|].
  apply Hr. exists txtA. split; [left; reflexivity|]. split; reflexivity.
Defined.

(* ----------------------------------------------------------------- *)
(** ** A request with a prompt and no upload *)

Lemma prompt_only_trace (v : variant) (cfg : config) (gen : model_fn v) (p : string)
  (s : fsys) :
  p <> "" -> api_key v cfg <> "" ->
  let '(_, s', t) := chat v cfg gen (mkReq (Some p) []) s in
  s' = s /\ List.filter is_invoke t = [EvInvoke [TextPart p]] /\
  forall e, In e t -> is_invoke e = true \/ exists m, e = EvLog m.
Proof.
  intros Hp Hk. apply String.eqb_neq in Hp, Hk.
  destruct v; simpl in *; [unfold chat_esm|unfold chat_cjs]; cbv zeta; simpl;
    unfold missing_content; simpl; rewrite Hp; simpl; rewrite Hk; unbind; simpl;
    rewrite Hp; simpl; cbv [invoke];
    [destruct (gen [TextPart p])|destruct (gen [TextPart p])]; cbv [log]; simpl;
    (split; [reflexivity|]); (split; [reflexivity|]);
    intros e He; simpl in He; intuition (subst; eauto).
Qed.

(** With the API key configured, a request that carries a non-empty
    prompt [p] (whitespace counts: the prompt is never trimmed) and no
    upload calls the model exactly once, with the single part
    [TextPart p]; it reads and removes nothing, and leaves the stored
    files as they were. *)
Theorem prompt_only_request (v : variant) (cfg : config) (gen : model_fn v) (p : string)
  (s : fsys) :
  p <> "" -> api_key v cfg <> "" ->
  let '(_, s', t) := chat v cfg gen (mkReq (Some p) []) s in
  s' = s /\ List.filter is_invoke t = [EvInvoke [TextPart p]] /\
  forall e, In e t -> is_invoke e = true \/ exists m, e = EvLog m.
Proof. exact (prompt_only_trace v cfg gen p s). Qed.

Lemma prompt_only_request_witness :
  " " <> "" /\ api_key ESM cfg0 <> "" /\
  let '(r, s', t) := chat ESM cfg0 gen_hello (mkReq (Some " ") []) fs_ab in
  s' = fs_ab /\ List.filter is_invoke t = [EvInvoke [TextPart " "]] /\
  r = Some (mkResp 200 (BOk (JStr "hello") 0)).
Proof.
  assert (H1 : " " <> "") by discriminate.
  assert (H2 : api_key ESM cfg0 <> "") by discriminate.
  split; [exact H1|]. split; [exact H2|].
  pose proof (prompt_only_request ESM cfg0 gen_hello " " fs_ab H1 H2) as H.
  destruct (chat ESM cfg0 gen_hello (mkReq (Some " ") []) fs_ab) as [[r s'] t] eqn:E.
  destruct H as (Hs & Hi & _). split; [exact Hs|]. split; [exact Hi|].
  vm_compute in E. injection E as <- _ _. reflexivity.
Defined.

Lemma esm_cleanup_only_unlinks (files : list file) :
  forall s e, In e (snd (Esm.cleanup files s)) -> exists p b, e = EvUnlink p b.
Proof.
  induction files as [|f rest IH]; intros s e H.
  - contradiction.
  - cbn [Esm.cleanup mapM_] in H. fold (Esm.cleanup rest) in H. unbind in H.
    destruct (fs_unlink (path f) s) as [[b s1] t1] eqn:Hu.
    destruct (fs_unlink_spec _ _ _ _ _ Hu) as (-> & _).
    pose proof (IH s1 e) as IHe.
    destruct (Esm.cleanup rest s1) as [[u s2] t2]. simpl in H, IHe.
    destruct H as [<-|H]; eauto.
Qed.

Lemma no_invoke_filter (t : list event) :
  no_invoke t = true -> List.filter is_invoke t = [].
Proof.
  induction t as [|e t IH]; [reflexivity|].
  unfold no_invoke; simpl. destruct (is_invoke e); simpl; [discriminate|exact IH].
Qed.

(** GET /health reports [geminiConfigured: false] exactly when POST /chat
    answers every request that has a prompt or a file with 500 "Gemini API
    key not configured", without reading any upload and without calling
    the model. *)
Theorem health_matches_chat_key (v : variant) (cfg : config) (gen : model_fn v)
  (now : string) :
  get (health v cfg now) "geminiConfigured" = JBool false <->
  (forall req s, missing_content req = false ->
     let '(r, _, t) := chat v cfg gen req s in
     r = Some resp500_no_key /\ no_invoke t = true /\ forall q, ~ In (EvRead q) t).
Proof.
  split.
  - intros Hh req s Hm.
    assert (Hk : String.eqb (api_key v cfg) "" = true)
      by (destruct v; simpl in Hh;
          (destruct (String.eqb _ ""); [reflexivity|discriminate])).
    destruct v; simpl in Hk |- *; [unfold chat_esm|unfold chat_cjs]; cbv zeta;
      rewrite Hm, Hk.
    + unbind. pose proof (esm_cleanup_spec (req_files req) s) as (s' & t & Hc & _ & _ & _ & _ & Hq).
      pose proof (esm_cleanup_only_unlinks (req_files req) s) as Hu.
      rewrite Hc in Hu |- *. simpl in Hu. rewrite app_nil_r.
      split; [reflexivity|]. split; [exact Hq|].
      intros q Hin. destruct (Hu _ Hin) as (p & b & Heq). discriminate.
    + unbind. split; [reflexivity|]. split; [reflexivity|]. intros q [].
  - intros H. destruct (String.eqb (api_key v cfg) "") eqn:Hk.
    + destruct v; simpl in Hk |- *; rewrite Hk; reflexivity.
    + exfalso. apply String.eqb_neq in Hk.
      assert (Hp : "x" <> "") by discriminate.
      pose proof (prompt_only_trace v cfg gen "x" (mkFs ∅ ∅) Hp Hk) as Ht.
      specialize (H (mkReq (Some "x") []) (mkFs ∅ ∅) eq_refl).
      destruct (chat v cfg gen (mkReq (Some "x") []) (mkFs ∅ ∅)) as [[r s'] t].
      destruct Ht as (_ & Hf & _). destruct H as (_ & Hn & _).
      rewrite (no_invoke_filter t Hn) in Hf. discriminate.
Qed.

(* ----------------------------------------------------------------- *)
(** *** Stored file names *)

Lemma string_app_nil (s : string) : (s ++ "")%string = s.
Proof. induction s as [|c s IH]; [reflexivity|exact (f_equal (String c) IH)]. Qed.

Lemma string_app_assoc (a b c : string) : (a ++ (b ++ c))%string = ((a ++ b) ++ c)%string.
Proof. induction a as [|x a IH]; [reflexivity|exact (f_equal (String x) IH)]. Qed.

Lemma string_length_app (a b : string) :
  String.length (a ++ b) = String.length a + String.length b.
Proof. induction a as [|x a IH]; [reflexivity|exact (f_equal S IH)]. Qed.

Lemma has_char_app (ch : ascii) (a b : string) :
  has_char ch (a ++ b) = has_char ch a || has_char ch b.
Proof.
  induction a as [|x a IH]; [reflexivity|].
  change (String x a ++ b)%string with (String x (a ++ b))%string.
  simpl. now rewrite IH, orb_assoc.
Qed.

Lemma get_has_char (ch : ascii) (s : string) :
  forall j c, has_char ch s = false -> String.get j s = Some c -> c <> ch.
Proof.
  induction s as [|c' s IH]; intros j c H Hg; [discriminate|].
  simpl in H. apply orb_false_iff in H as [H1 H2].
  destruct j; simpl in Hg.
  - injection Hg as <-. apply Ascii.eqb_neq in H1. auto.
  - eauto.
Qed.

Lemma get_lt (s : string) : forall n, n < String.length s -> exists c, String.get n s = Some c.
Proof.
  induction s as [|c s IH]; intros n H; simpl in H; [lia|].
  destruct n; simpl; [eauto|]. apply IH. lia.
Qed.

Lemma substring_zero (s : string) : forall n, substring n 0 s = "".
Proof. induction s as [|c s IH]; intros [|n]; simpl; auto. Qed.

Lemma substring_get_S (s : string) :
  forall n k c, String.get n s = Some c -> substring n (S k) s = String c (substring (S n) k s).
Proof.
  induction s as [|c' s IH]; intros n k c H; [discriminate|].
  destruct n as [|n]; simpl in H |- *.
  - injection H as <-. reflexivity.
  - rewrite (IH n k c H). reflexivity.
Qed.

Lemma substring_no_char (ch : ascii) (s : string) :
  forall k n, (forall j, n <= j < n + k -> exists c, String.get j s = Some c /\ c <> ch) ->
  has_char ch (substring n k s) = false.
Proof.
  induction k as [|k IH]; intros n H.
  - now rewrite substring_zero.
  - destruct (H n ltac:(lia)) as (c & Hc & Hne).
    rewrite (substring_get_S s n k c Hc). simpl.
    rewrite IH by (intros j Hj; apply H; lia).
    apply Ascii.eqb_neq in Hne. rewrite Ascii.eqb_sym, Hne. reflexivity.
Qed.

Lemma substring_app (a b : string) :
  substring (String.length a) (String.length b) (a ++ b) = b.
Proof.
  induction a as [|x a IH].
  - change (substring 0 (String.length b) b = b).
    induction b as [|y b IHb]; [reflexivity|exact (f_equal (String y) IHb)].
  - change (substring (S (String.length a)) (String.length b) (String x (a ++ b)) = b).
    destruct (String.length b); exact IH.
Qed.

Lemma digit_plain (x : N) :
  (x < 10)%N -> ascii_of_N (48 + x) <> "."%char /\ ascii_of_N (48 + x) <> "/"%char.
Proof.
  intros Hx.
  assert (H : (x = 0 \/ x = 1 \/ x = 2 \/ x = 3 \/ x = 4 \/ x = 5 \/ x = 6 \/ x = 7 \/
               x = 8 \/ x = 9)%N) by lia.
  repeat destruct H as [->|H]; [..|subst x];
    vm_compute; split; intro E; discriminate E.
Qed.

Lemma digits_aux_plain (ch : ascii) :
  ch = "."%char \/ ch = "/"%char ->
  forall fuel n acc, has_char ch acc = false -> has_char ch (digits_aux fuel n acc) = false.
Proof.
  intros Hch. induction fuel as [|fuel IH]; intros n acc Hacc; simpl; [exact Hacc|].
  assert (Hd : has_char ch (String (ascii_of_N (48 + n mod 10)) acc) = false).
  { simpl. rewrite Hacc, orb_false_r. apply Ascii.eqb_neq.
    destruct (digit_plain (n mod 10) ltac:(apply N.mod_lt; lia)) as [H1 H2].
    destruct Hch as [->| ->]; auto. }
  destruct (n <? 10)%N; [exact Hd|]. apply IH. exact Hd.
Qed.

Lemma decimal_plain (z : Z) :
  has_char "."%char (Z_to_decimal z) = false /\ has_char "/"%char (Z_to_decimal z) = false.
Proof.
  split; unfold Z_to_decimal, N_to_decimal; destruct z;
    (apply digits_aux_plain; [now (left + right)|reflexivity]) ||
    (simpl; apply digits_aux_plain; [now (left + right)|reflexivity]).
Qed.

Lemma extname_loop_inv (p : string) :
  forall f i st, (i = Z.of_nat f - 1)%Z -> ext_inv p (i + 1)%Z st ->
  exists m, (0 <= m)%Z /\ ext_inv p m (extname_loop f p i st).
Proof.
  induction f as [|f IH]; intros i st Hi Hinv.
  - exists (i + 1)%Z. split; [lia|exact Hinv].
  - cbn [extname_loop].
    destruct (String.get (Z.to_nat i) p) as [c|] eqn:Hg;
      [|exists (i + 1)%Z; split; [lia|exact Hinv]].
    destruct Hinv as (I1 & I2 & I3 & I4).
    destruct (Ascii.eqb_spec c "/"%char) as [Hs|Hs].
    + destruct (matchedSlash st) eqn:Hm; simpl.
      * apply IH; [lia|]. replace (i - 1 + 1)%Z with i by lia.
        assert (He : (end_ st = -1)%Z).
        { destruct (Z.eq_dec (end_ st) (-1)%Z) as [E|E]; [exact E|].
          destruct (I2 E) as [E' _]. congruence. }
        split; [rewrite Hm; exact I1|]. split; [intros; congruence|].
        split; [intros _ j Hj; lia|]. intros Hsd. destruct (I1 He). congruence.
      * exists (i + 1)%Z. split; [lia|]. unfold ext_inv; cbn [startDot end_ matchedSlash].
        exact (conj I1 (conj I2 (conj I3 I4))).
    + apply IH; [lia|]. replace (i - 1 + 1)%Z with i by lia.
      assert (Hi0 : (0 <= i)%Z) by lia.
      unfold ext_inv, ext_nonslash.
      destruct (Z.eqb_spec (end_ st) (-1)%Z) as [He|He].
      * destruct (I1 He) as [Hsd _]. simpl. rewrite Hsd. simpl.
        destruct (Ascii.eqb_spec c "."%char) as [Hd|Hd]; simpl.
        -- subst c. split; [intros; lia|]. split; [intros; split; [reflexivity|lia]|].
           split; [intros; lia|]. intros _. split; [lia|]. split; [exact Hg|].
           intros; lia.
        -- split; [intros; lia|]. split; [intros; split; [reflexivity|lia]|].
           split; [|intros E; contradiction E; reflexivity].
           intros _ j Hj. assert (j = i) as -> by lia. exists c. auto.
      * destruct (I2 He) as [Hm Hlt].
        destruct (Ascii.eqb_spec c "."%char) as [Hd|Hd];
          destruct (Z.eqb_spec (startDot st) (-1)%Z) as [Hsd|Hsd]; simpl;
          [|destruct (Z.eqb_spec (preDotState st) 1%Z); simpl| |];
          (split; [intros; congruence|]); (split; [intros; split; [exact Hm|lia]|]).
        -- split; [intros; lia|]. intros _. split; [lia|]. subst c. split; [exact Hg|].
           intros j Hj. apply I3; [exact Hsd|lia].
        -- split; [intros; contradiction|]. intros _.
           destruct (I4 Hsd) as (H1 & H2 & H3). split; [lia|]. auto.
        -- split; [intros; contradiction|]. intros _.
           destruct (I4 Hsd) as (H1 & H2 & H3). split; [lia|]. auto.
        -- split.
           ++ intros _ j Hj. destruct (Z.eq_dec j i) as [->|Hji]; [exists c; auto|].
              apply I3; [exact Hsd|lia].
           ++ intros; contradiction.
        -- split; [intros; contradiction|]. intros _.
           destruct (I4 Hsd) as (H1 & H2 & H3). split; [lia|]. auto.
Qed.

Lemma extname_shape (o : string) :
  extname o = "" \/
  exists r, extname o = String "."%char r /\
            has_char "."%char r = false /\ has_char "/"%char r = false.
Proof.
  unfold extname. cbv zeta.
  destruct (extname_loop_inv o (String.length o) (Z.of_nat (String.length o) - 1) ext_init
              eq_refl) as (m & Hm & I1 & I2 & I3 & I4).
  { split; [intros; split; reflexivity|]. split; [intros E; contradiction E; reflexivity|].
    split; [intros _ j Hj; cbn in Hj; lia|]. intros E; contradiction E; reflexivity. }
  set (st := extname_loop _ _ _ _) in *.
  destruct (Z.eqb_spec (startDot st) (-1)%Z) as [Hsd|Hsd]; [left; reflexivity|].
  destruct (Z.eqb_spec (end_ st) (-1)%Z) as [He|He]; [left; now rewrite orb_true_r|].
  destruct (_ || _); [left; reflexivity|right]. simpl.
  destruct (I4 Hsd) as (H1 & H2 & H3).
  replace (Z.to_nat (end_ st - startDot st)) with (S (Z.to_nat (end_ st - startDot st - 1)%Z))
    by lia.
  rewrite (substring_get_S _ _ _ _ H2).
  eexists; split; [reflexivity|].
  split; apply substring_no_char; intros j Hj;
    destruct (H3 (Z.of_nat j) ltac:(lia)) as (c & Hc & Hd & Hs);
    rewrite Nat2Z.id in Hc; exists c; auto.
Qed.

Lemma extname_loop_nodot (p : string) :
  (forall j c, String.get j p = Some c -> c <> "."%char) ->
  forall f i st, startDot st = (-1)%Z -> startDot (extname_loop f p i st) = (-1)%Z.
Proof.
  intros Hp. induction f as [|f IH]; intros i st Hsd; cbn [extname_loop]; [exact Hsd|].
  destruct (String.get (Z.to_nat i) p) as [c|] eqn:Hg; [|exact Hsd].
  pose proof (Hp _ _ Hg) as Hd. apply Ascii.eqb_neq in Hd.
  destruct (Ascii.eqb c "/"%char).
  - destruct (matchedSlash st); simpl; [apply IH; exact Hsd|exact Hsd].
  - apply IH. unfold ext_nonslash. rewrite Hd.
    destruct (Z.eqb (end_ st) (-1)); simpl; rewrite Hsd; simpl; rewrite ?Hsd; reflexivity.
Qed.

Lemma extname_loop_step (p : string) (f : nat) (i : Z) (st : ext_state) (c : ascii) :
  String.get (Z.to_nat i) p = Some c -> c <> "/"%char ->
  extname_loop (S f) p i st = extname_loop f p (i - 1) (ext_nonslash i c st).
Proof.
  intros Hg Hs. cbn [extname_loop]. rewrite Hg.
  apply Ascii.eqb_neq in Hs. rewrite Hs. reflexivity.
Qed.

Lemma extname_loop_seen (p : string) (e : Z) :
  e <> (-1)%Z ->
  forall n f i, (forall j, (i - Z.of_nat n < j <= i)%Z -> ext_ok p j) ->
  extname_loop (n + f) p i (mkExt (-1) 0 e false 0) =
  extname_loop f p (i - Z.of_nat n) (mkExt (-1) 0 e false 0).
Proof.
  intros He. induction n as [|n IH]; intros f i H.
  - simpl. now rewrite Z.sub_0_r.
  - destruct (H i ltac:(lia)) as (c & Hg & Hd & Hs).
    change (S n + f) with (S (n + f)).
    rewrite (extname_loop_step p (n + f) i _ c Hg Hs).
    apply Ascii.eqb_neq in Hd. unfold ext_nonslash. simpl.
    rewrite (proj2 (Z.eqb_neq _ _) He), Hd. simpl.
    rewrite IH by (intros; apply H; lia). f_equal. lia.
Qed.

Lemma extname_loop_after (p : string) (a e : Z) :
  a <> (-1)%Z -> e <> (-1)%Z ->
  forall f i, (i = Z.of_nat f - 1)%Z -> (forall j, (0 <= j <= i)%Z -> ext_ok p j) ->
  extname_loop f p i (mkExt a 0 e false (-1)) = mkExt a 0 e false (-1).
Proof.
  intros Ha He. induction f as [|f IH]; intros i Hi H; [reflexivity|].
  destruct (H i ltac:(lia)) as (c & Hg & Hd & Hs).
  rewrite (extname_loop_step p f i _ c Hg Hs).
  apply Ascii.eqb_neq in Hd. unfold ext_nonslash. simpl.
  rewrite (proj2 (Z.eqb_neq _ _) He), Hd. simpl.
  rewrite (proj2 (Z.eqb_neq _ _) Ha). simpl.
  apply IH; [lia|intros; apply H; lia].
Qed.

(** The last steps of the loop on [P ++ "." ++ r]: the [.] at index
    [length P], then the characters of [P]. *)
Lemma extname_loop_tail (N : string) (p' : nat) (e : Z) (st : ext_state) :
  String.get (S p') N = Some "."%char ->
  (forall j, (0 <= j <= Z.of_nat p')%Z -> ext_ok N j) -> e <> (-1)%Z ->
  ext_nonslash (Z.of_nat (S p')) "."%char st = mkExt (Z.of_nat (S p')) 0 e false 0 ->
  extname_loop (S (S p')) N (Z.of_nat (S p')) st = mkExt (Z.of_nat (S p')) 0 e false (-1).
Proof.
  intros Hdot Hok He Hst.
  rewrite (extname_loop_step N (S p') _ st "."%char); [|now rewrite Nat2Z.id|discriminate].
  rewrite Hst.
  destruct (Hok (Z.of_nat p') ltac:(lia)) as (c & Hg & Hd & Hs).
  rewrite (extname_loop_step N p' _ _ c); [|rewrite <- Hg; f_equal; lia|exact Hs].
  apply Ascii.eqb_neq in Hd. unfold ext_nonslash. simpl.
  rewrite (proj2 (Z.eqb_neq _ _) He), Hd.
  apply extname_loop_after; [lia|exact He|lia|intros; apply Hok; lia].
Qed.

Lemma extname_app_ext (P e : string) :
  P <> "" -> has_char "."%char P = false -> has_char "/"%char P = false ->
  (e = "" \/ exists r, e = String "."%char r /\
                       has_char "."%char r = false /\ has_char "/"%char r = false) ->
  extname (P ++ e) = e.
Proof.
  intros HP HPd HPs [->|(r & -> & Hrd & Hrs)].
  - rewrite string_app_nil. unfold extname. cbv zeta.
    rewrite (extname_loop_nodot P (fun j c Hg => get_has_char _ _ j c HPd Hg) _ _ ext_init
               eq_refl).
    reflexivity.
  - set (N := (P ++ String "."%char r)%string).
    assert (Hp' : exists p', String.length P = S p')
      by (destruct P; [congruence|eexists; reflexivity]).
    destruct Hp' as [p' Hp'].
    assert (HL : String.length N = S p' + S (String.length r))
      by (unfold N; rewrite string_length_app, Hp'; reflexivity).
    assert (HokP : forall j, (0 <= j <= Z.of_nat p')%Z -> ext_ok N j).
    { intros j Hj. destruct (get_lt P (Z.to_nat j) ltac:(lia)) as (c & Hc).
      exists c. unfold N. rewrite <- append_correct1 by lia.
      split; [exact Hc|].
      split; [exact (get_has_char _ _ _ _ HPd Hc)|exact (get_has_char _ _ _ _ HPs Hc)]. }
    assert (HokR : forall j, (Z.of_nat (S p') < j < Z.of_nat (String.length N))%Z ->
                             ext_ok N j).
    { intros j Hj. destruct (get_lt r (Z.to_nat j - S p' - 1) ltac:(lia)) as (c & Hc).
      exists c. replace (Z.to_nat j) with (S (Z.to_nat j - S p' - 1) + String.length P)
        by lia.
      unfold N. rewrite <- append_correct2.
      split; [exact Hc|].
      split; [exact (get_has_char _ _ _ _ Hrd Hc)|exact (get_has_char _ _ _ _ Hrs Hc)]. }
    assert (Hdot : String.get (S p') N = Some "."%char).
    { pose proof (append_correct2 P (String "."%char r) 0) as E. rewrite Hp' in E.
      symmetry. exact E. }
    assert (Hloop : extname_loop (String.length N) N (Z.of_nat (String.length N) - 1) ext_init
                    = mkExt (Z.of_nat (S p')) 0 (Z.of_nat (String.length N)) false (-1)).
    { rewrite HL. destruct (String.length r) as [|n] eqn:Hr.
      - replace (Z.of_nat (S p' + 1) - 1)%Z with (Z.of_nat (S p')) by lia.
        replace (S p' + 1) with (S (S p')) by lia.
        apply extname_loop_tail; [exact Hdot|exact HokP|lia|].
        unfold ext_nonslash. simpl. f_equal. lia.
      - set (i0 := (Z.of_nat (S p' + S (S n)) - 1)%Z).
        destruct (HokR i0 ltac:(lia)) as (c & Hg & Hd & Hs).
        replace (S p' + S (S n)) with (S (n + S (S p'))) by lia.
        rewrite (extname_loop_step N _ i0 _ c Hg Hs).
        apply Ascii.eqb_neq in Hd. unfold ext_nonslash at 1. simpl. rewrite Hd. simpl.
        rewrite (extname_loop_seen N (i0 + 1) ltac:(lia) n (S (S p')) (i0 - 1))
          by (intros; apply HokR; lia).
        replace (i0 - 1 - Z.of_nat n)%Z with (Z.of_nat (S p')) by lia.
        replace (Z.of_nat (S (n + S (S p')))) with (i0 + 1)%Z by lia.
        apply extname_loop_tail; [exact Hdot|exact HokP|lia|].
        unfold ext_nonslash. simpl.
        rewrite (proj2 (Z.eqb_neq (i0 + 1) (-1)) ltac:(lia)). reflexivity. }
    unfold extname. cbv zeta. rewrite Hloop. simpl.
    rewrite (proj2 (Z.eqb_neq (Z.of_nat (String.length N)) (-1)) ltac:(lia)).
    simpl. rewrite Nat2Z.id.
    replace (Z.to_nat (Z.of_nat (String.length N) - Z.of_nat (S p')))
      with (String.length (String "."%char r)) by (simpl; lia).
    rewrite <- Hp'. apply substring_app.
Qed.

Lemma uniqueSuffix_plain (now rnd : Z) :
  has_char "."%char (uniqueSuffix now rnd) = false /\
  has_char "/"%char (uniqueSuffix now rnd) = false.
Proof.
  unfold uniqueSuffix. rewrite !has_char_app.
  destruct (decimal_plain now) as [-> ->], (decimal_plain rnd) as [-> ->].
  split; reflexivity.
Qed.

(** multer stores an upload under a name that keeps the extension of the
    client's file name: [path.extname] of the stored name
    [fieldname-<now>-<random><ext>] is [path.extname(originalname)],
    for a field name without [.] or [/] (both servers use the field
    [files]). *)
Theorem storage_filename_extname (fieldname originalname : string) (now rnd : Z) :
  has_char "."%char fieldname = false -> has_char "/"%char fieldname = false ->
  extname (storage_filename fieldname originalname now rnd) = extname originalname.
Proof.
  intros Hd Hs. unfold storage_filename.
  replace (fieldname ++ "-" ++ uniqueSuffix now rnd ++ extname originalname)%string
    with ((fieldname ++ "-" ++ uniqueSuffix now rnd) ++ extname originalname)%string
    by (rewrite <- !string_app_assoc; reflexivity).
  destruct (uniqueSuffix_plain now rnd) as [Ud Us].
  apply extname_app_ext.
  - destruct fieldname; discriminate.
  - rewrite !has_char_app, Hd, Ud. reflexivity.
  - rewrite !has_char_app, Hs, Us. reflexivity.
  - apply extname_shape.
Qed.

Lemma storage_filename_extname_witness :
  has_char "."%char "files" = false /\ has_char "/"%char "files" = false /\
  extname (storage_filename "files" "report.final.pdf" 1700000000000 123456789) = ".pdf".
Proof.
  split; [reflexivity|]. split; [reflexivity|].
  rewrite (storage_filename_extname "files" "report.final.pdf" 1700000000000 123456789
             eq_refl eq_refl).
  reflexivity.
Defined.

(** Whatever the client's file name (for instance [../../etc/passwd]),
    the name multer stores the upload under contains no [/], so the
    stored file stays directly inside the upload directory; this holds
    for a field name without [/] (the servers use [files]). *)
Theorem storage_filename_no_slash (fieldname originalname : string) (now rnd : Z) :
  has_char "/"%char fieldname = false ->
  has_char "/"%char (storage_filename fieldname originalname now rnd) = false.
Proof.
  intros Hs. unfold storage_filename. rewrite !has_char_app, Hs.
  destruct (uniqueSuffix_plain now rnd) as [_ ->].
  destruct (extname_shape originalname) as [->|(r & -> & _ & Hr)]; [reflexivity|].
  simpl. exact Hr.
Qed.

Lemma storage_filename_no_slash_witness :
  has_char "/"%char "files" = false /\
  has_char "/"%char (storage_filename "files" "../../etc/passwd" 1700000000000 42) = false.
Proof.
  split; [reflexivity|].
  exact (storage_filename_no_slash "files" "../../etc/passwd" 1700000000000 42 eq_refl).
Defined.

(** GET /test-gemini never touches the stored files; without an API key
    it answers 500 "Gemini API key not configured" without calling the
    model, and with one it calls the model once, on its fixed text. It
    answers 200 exactly when POST /chat with that text as the only
    content answers 200, and its [message] is then the [output] of that
    chat answer. *)
Theorem test_gemini_agrees_with_chat (v : variant) (cfg : config) (gen : model_fn v)
  (s : fsys) :
  let '(tr, s1, t1) := test_gemini v cfg gen s in
  let '(r, _, _) := chat v cfg gen (mkReq (Some (test_prompt v)) []) s in
  s1 = s /\
  (api_key v cfg = "" -> tr = test_no_key /\ t1 = []) /\
  (api_key v cfg <> "" -> List.filter is_invoke t1 = [EvInvoke [TextPart (test_prompt v)]]) /\
  (tstatus tr = 200%Z <->
   exists out, r = Some (mkResp 200 (BOk out 0)) /\ get (tbody tr) "message" = out).
Proof.
  destruct v; simpl in *;
    [unfold test_gemini_esm, chat_esm|unfold test_gemini_cjs, chat_cjs]; cbv zeta;
    unfold missing_content; simpl;
    (match goal with
     | |- context [String.eqb (?key cfg) ""] => destruct (String.eqb_spec (key cfg) "") as [Hk|Hk]
     end); unbind; simpl.
  - split; [reflexivity|]. split; [intros _; split; reflexivity|].
    split; [intros H; contradiction|].
    split; [discriminate|intros (out & E & _); discriminate E].
  - cbv [invoke]. destruct (gen _) as [r|e]; cbv [log]; simpl.
    + split; [reflexivity|]. split; [intros; contradiction|].
      split; [reflexivity|]. split; [intros _; eexists; split; reflexivity|reflexivity].
    + split; [reflexivity|]. split; [intros; contradiction|].
      split; [reflexivity|].
      split; [discriminate|intros (out & E & _); unfold Esm.classify in E].
      destruct (_ || _); [discriminate|].
      repeat match type of E with
             | context [if ?b then _ else _] => destruct b
             end; discriminate.
  - split; [reflexivity|]. split; [intros _; split; reflexivity|].
    split; [intros H; contradiction|].
    split; [discriminate|intros (out & E & _); discriminate E].
  - cbv [invoke]. destruct (gen _) as [r|e]; cbv [log]; simpl.
    + split; [reflexivity|]. split; [intros; contradiction|].
      split; [reflexivity|]. split; [intros _; eexists; split; reflexivity|reflexivity].
    + split; [reflexivity|]. split; [intros; contradiction|].
      split; [reflexivity|].
      split; [discriminate|intros (out & E & _); unfold Cjs.classify in E].
      destruct (err_message e); [|discriminate].
      repeat match type of E with
             | context [if ?b then _ else _] => destruct b
             end; discriminate.
Qed.
